(** * Graph assembly of [try1.py] (build_knowledge_graph)

    A shallow embedding of the table-to-graph engine of [src/try1.py]:
    [parse_properties_from_row], [ensure_name] and [build_graph] with its
    nested [add_nodes_from_df], over a model of the Python values, the
    pandas rows and the networkx [DiGraph] the script works on.

    Python dictionaries keep insertion order and the script depends on
    in-place updates of the attribute dictionaries held by the graph, so a
    dictionary is an association list with Python's [d[k] = v], [update]
    and [setdefault]; key uniqueness is an invariant that is proved, not
    assumed.  [json.loads] belongs to the Python library: the development
    is parametric in it. *)

From Stdlib Require Import List String Ascii ZArith Bool Lia DecimalString Permutation.
Import ListNotations.
Open Scope string_scope.

Set Implicit Arguments.

(** ** Python values *)

(** What [json.loads] can return.  A number keeps an integer as [Z] and any
    other literal as its text. *)
#[warnings="-register-all"] Inductive json : Type :=
| JNull
| JBool (b : bool)
| JInt (z : Z)
| JFloat (lit : string)
| JStr (s : string)
| JArr (items : list json)
| JObj (members : list (string * json)).

(** A raw cell of a row: a [str], the missing marker [nan] that
    [pd.read_csv] puts in an empty field, or an integer. *)
Inductive cell : Type :=
| CStr (s : string)
| CNaN
| CInt (z : Z).

(** A value stored in an attribute dictionary of the graph. *)
Inductive value : Type :=
| VStr (s : string)
| VNaN
| VInt (z : Z)
| VBool (b : bool)
| VJson (j : json).

Definition of_cell (c : cell) : value :=
  match c with
  | CStr s => VStr s
  | CNaN => VNaN
  | CInt z => VInt z
  end.

(** [str(x)] on a cell. *)
Definition py_str (c : cell) : string :=
  match c with
  | CStr s => s
  | CNaN => "nan"
  | CInt z => NilZero.string_of_int (Z.to_int z)
  end.

(** Truth value of a cell in [if x:]: the empty string and [0] are false,
    [nan] is a non-zero float and so is true. *)
Definition truthy (c : cell) : bool :=
  match c with
  | CStr s => negb (s =? "")
  | CNaN => true
  | CInt z => negb (z =? 0)%Z
  end.

(** [TypeError] is the one a call raises when a keyword argument repeats a
    named parameter; its message is not modelled. *)
Inductive exn : Type :=
| KeyError (msg : string)
| JSONDecodeError (msg : string)
| TypeError.

Inductive result (A : Type) : Type :=
| Ok (a : A)
| Raise (e : exn).

Arguments Ok {A} a.
Arguments Raise {A} e.

Definition bind {A B : Type} (r : result A) (k : A -> result B) : result B :=
  match r with
  | Ok a => k a
  | Raise e => Raise e
  end.

Notation "x <- r ;; k" := (bind r (fun x => k))
  (at level 61, r at next level, right associativity).

(** A [for] loop whose body may raise: the first exception ends it. *)
Fixpoint fold_result {A B : Type} (f : A -> B -> result A) (l : list B) (a : A)
    : result A :=
  match l with
  | [] => Ok a
  | x :: r => a' <- f a x ;; fold_result f r a'
  end.

(** ** Strings *)

(** [str.isspace] on one character, for code points below 256. *)
Definition is_space (c : ascii) : bool :=
  let n := nat_of_ascii c in
  (((9 <=? n) && (n <=? 13)) || ((28 <=? n) && (n <=? 32))
   || (n =? 133) || (n =? 160))%nat.

Fixpoint lstrip (s : string) : string :=
  match s with
  | EmptyString => EmptyString
  | String c r => if is_space c then lstrip r else s
  end.

Fixpoint rstrip (s : string) : string :=
  match s with
  | EmptyString => EmptyString
  | String c r =>
      match rstrip r with
      | EmptyString => if is_space c then EmptyString else String c EmptyString
      | r' => String c r'
      end
  end.

(** [s.strip()] *)
Definition strip (s : string) : string := lstrip (rstrip s).

(** [s.startswith(p)] *)
Definition startswith (s p : string) : bool := prefix p s.

(** [s.endswith(p)] *)
Definition endswith (s p : string) : bool :=
  (String.length p <=? String.length s)%nat
  && (substring (String.length s - String.length p) (String.length p) s =? p).

(** [p in s] for strings. *)
Fixpoint contains (s p : string) : bool :=
  prefix p s
  || match s with
     | EmptyString => false
     | String _ r => contains r p
     end.

(** [c in l] for a list of labels. *)
Definition mem (c : string) (l : list string) : bool :=
  existsb (String.eqb c) l.

(** ** Dictionaries *)

Class EqKey (K : Type) : Type := {
  keqb : K -> K -> bool;
  keqb_spec : forall x y : K, reflect (x = y) (keqb x y)
}.

#[export] Instance string_key : EqKey string :=
  {| keqb := String.eqb; keqb_spec := String.eqb_spec |}.

Definition pair_eqb (p q : string * string) : bool :=
  (fst p =? fst q) && (snd p =? snd q).

Lemma pair_eqb_spec (p q : string * string) : reflect (p = q) (pair_eqb p q).
Proof.
  destruct p as [a b], q as [c d]; unfold pair_eqb; simpl.
  destruct (String.eqb_spec a c) as [->|Hac]; simpl.
  - destruct (String.eqb_spec b d) as [->|Hbd]; constructor; congruence.
  - constructor; congruence.
Qed.

#[export] Instance pair_key : EqKey (string * string) :=
  {| keqb := pair_eqb; keqb_spec := pair_eqb_spec |}.

Section Dict.
Context {K V : Type} `{EqKey K}.

Definition dict : Type := list (K * V).

(** [d.get(k)] *)
Fixpoint dict_get (k : K) (d : dict) : option V :=
  match d with
  | [] => None
  | (k', v) :: r => if keqb k k' then Some v else dict_get k r
  end.

(** [k in d] *)
Definition dict_has (k : K) (d : dict) : bool :=
  match dict_get k d with
  | Some _ => true
  | None => false
  end.

(** [d[k] = v]: an existing key keeps its position, a new one goes last. *)
Fixpoint dict_set (k : K) (v : V) (d : dict) : dict :=
  match d with
  | [] => [(k, v)]
  | (k', v') :: r =>
      if keqb k k' then (k', v) :: r else (k', v') :: dict_set k v r
  end.

(** [d.update(e)] *)
Definition dict_update (d e : dict) : dict :=
  fold_left (fun acc kv => dict_set (fst kv) (snd kv) acc) e d.

(** [d.setdefault(k, v)], for its effect on [d]. *)
Definition dict_setdefault (k : K) (v : V) (d : dict) : dict :=
  if dict_has k d then d else dict_set k v d.

Definition keys (d : dict) : list K := map fst d.
End Dict.

Arguments dict : clear implicits.

(** ** Rows and tables *)

(** One row as [iterrows] yields it: the labels of the table, each with its
    cell. *)
Definition Series : Type := list (string * cell).

(** A table: its column labels and its rows of cells.  Labels are distinct,
    as [pd.read_csv] makes them; a row shorter than the header reads as
    padded with [nan]. *)
Record DataFrame : Type := {
  columns : list string;
  rows : list (list cell)
}.

Fixpoint mk_row (cols : list string) (cells : list cell) : Series :=
  match cols with
  | [] => []
  | c :: cs =>
      match cells with
      | [] => (c, CNaN) :: mk_row cs []
      | x :: xs => (c, x) :: mk_row cs xs
      end
  end.

Definition iterrows (df : DataFrame) : list Series :=
  map (mk_row (columns df)) (rows df).

(** [row.index] *)
Definition index (row : Series) : list string := map fst row.

(** [row[c]]; the script only indexes labels found among the columns. *)
Definition row_get (row : Series) (c : string) : cell :=
  match dict_get c row with
  | Some x => x
  | None => CNaN
  end.

Definition attrs : Type := dict string value.

(** ** The graph *)

(** [nx.DiGraph]: the node dictionary and the edge data.  networkx keeps
    the edge data by source and then by target; here they are kept by the
    ordered pair (source, target).  The order of this second dictionary is
    not an order the program has: [G.edges] goes through the nodes in
    their order and gives the edges that leave each one, see [out_edges]. *)
Record DiGraph : Type := {
  nodes : dict string attrs;
  edges : dict (string * string) attrs
}.

Definition empty_graph : DiGraph := {| nodes := []; edges := [] |}.

(** [n in G] *)
Definition has_node (G : DiGraph) (n : string) : bool := dict_has n (nodes G).

(** Whether the call [f(..., **a)] fails to bind its arguments: a key of
    [a] is the name of a parameter of [f] that is already given. *)
Definition kwargs_clash (params : list string) (a : attrs) : bool :=
  existsb (fun p => dict_has p a) params.

(** The named parameters of [DiGraph.add_node(self, node_for_adding, **attr)]
    and of [DiGraph.add_edge(self, u_of_edge, v_of_edge, **attr)]. *)
Definition add_node_params : list string := ["self"; "node_for_adding"].
Definition add_edge_params : list string := ["self"; "u_of_edge"; "v_of_edge"].

(** The body of [add_node] on the node [n] and the attributes [a]: a new
    node gets a fresh dictionary holding [a], an existing one has its
    dictionary updated. *)
Definition put_node (G : DiGraph) (n : string) (a : attrs) : DiGraph :=
  match dict_get n (nodes G) with
  | None => {| nodes := dict_set n (dict_update [] a) (nodes G); edges := edges G |}
  | Some old => {| nodes := dict_set n (dict_update old a) (nodes G); edges := edges G |}
  end.

(** [G.add_node(n, **a)] *)
Definition add_node (G : DiGraph) (n : string) (a : attrs) : result DiGraph :=
  if kwargs_clash add_node_params a then Raise TypeError else Ok (put_node G n a).

(** The body of [add_edge]: missing endpoints are added bare, then the data
    of the edge (u, v), empty if the edge is new, is updated with [a]. *)
Definition put_edge (G : DiGraph) (u v : string) (a : attrs) : DiGraph :=
  let G1 := if has_node G u then G else put_node G u [] in
  let G2 := if has_node G1 v then G1 else put_node G1 v [] in
  let datadict :=
    match dict_get (u, v) (edges G2) with
    | Some d => d
    | None => []
    end in
  {| nodes := nodes G2; edges := dict_set (u, v) (dict_update datadict a) (edges G2) |}.

(** [G.add_edge(u, v, **a)] *)
Definition add_edge (G : DiGraph) (u v : string) (a : attrs) : result DiGraph :=
  if kwargs_clash add_edge_params a then Raise TypeError else Ok (put_edge G u v a).

(** [G.nodes[n].setdefault(k, v)] *)
Definition node_setdefault (G : DiGraph) (n k : string) (v : value) : DiGraph :=
  match dict_get n (nodes G) with
  | Some a => {| nodes := dict_set n (dict_setdefault k v a) (nodes G); edges := edges G |}
  | None => G
  end.

(** [G.nodes[n].update(p)] *)
Definition node_update (G : DiGraph) (n : string) (p : attrs) : DiGraph :=
  match dict_get n (nodes G) with
  | Some a => {| nodes := dict_set n (dict_update a p) (nodes G); edges := edges G |}
  | None => G
  end.

(** ** The script *)

Definition id_aliases : list string := ["id"; "node_id"; "Id"; "ID"].
Definition type_aliases : list string := ["type"; "node_type"; "Type"].
Definition source_aliases : list string := ["source_id"; "source"; "from"; "From"].
Definition target_aliases : list string := ["target_id"; "target"; "to"; "To"].
Definition relation_aliases : list string :=
  ["relationship_type"; "rel_type"; "type"; "relationship"].

(** The loop [for c in candidates: if c in df.columns: col = c; break]
    that starts from [col = None]. *)
Definition first_present (cols candidates : list string) : option string :=
  find (fun c => mem c cols) candidates.

(** [repr] of a list of strings that need no escaping. *)
Definition repr_list (l : list string) : string :=
  "[" ++ String.concat ", " (map (fun s => "'" ++ s ++ "'") l) ++ "]".

Definition ensure_name (df : DataFrame) (candidates : list string) : result string :=
  match first_present (columns df) candidates with
  | Some c => Ok c
  | None =>
      Raise (KeyError ("None of the expected columns found in dataframe: "
                       ++ repr_list candidates))
  end.

Definition no_id_column (source_label : string) : exn :=
  KeyError ("No id column found in " ++ source_label
            ++ "; expected one of id/node_id/Id/ID").

Definition no_source_target : exn :=
  KeyError "Relations CSV must contain source and target columns (e.g. source_id, target_id)".

(** The cells that [.replace('', pd.NA).dropna()] removes. *)
Definition dropped (c : cell) : bool :=
  match c with
  | CStr s => s =? ""
  | CNaN => true
  | CInt _ => false
  end.

(** [label in drop_cols], where [drop_cols] may hold [None]. *)
Definition in_drop (drop_cols : list (option string)) (label : string) : bool :=
  existsb (fun o => match o with Some c => label =? c | None => false end) drop_cols.

(** The test of line 59 on the stripped string. *)
Definition bracketed (s : string) : bool :=
  (startswith s "{" && endswith s "}") || (startswith s "[" && endswith s "]").

Section Assembly.
(** [json.loads] *)
Variable json_loads : string -> result json.

(** The body of the loop of lines 55-64 on one value. *)
Definition decode_value (v : value) : value :=
  match v with
  | VStr s0 =>
      let s := strip s0 in
      if bracketed s then
        match json_loads s with
        | Ok j => VJson j
        | Raise _ => v
        end
      else v
  | _ => v
  end.

Definition parse_properties_from_row (row : Series)
    (drop_cols : list (option string)) : attrs :=
  let props :=
    map (fun kc => (fst kc, of_cell (snd kc)))
      (filter (fun kc => negb (dropped (snd kc)))
         (filter (fun kc => negb (in_drop drop_cols (fst kc))) row)) in
  map (fun kv => (fst kv, decode_value (snd kv))) props.

(** The three values a node row is read into (lines 128-130). *)
Definition node_fields (id_col : string) (type_col : option string)
    (row : Series) : string * option cell * attrs :=
  let node_id := py_str (row_get row id_col) in
  let node_type :=
    match type_col with
    | Some c => if mem c (index row) then Some (row_get row c) else None
    | None => None
    end in
  let props := parse_properties_from_row row [Some id_col; type_col] in
  (node_id, node_type, props).

(** The attributes line 138 starts a new node from. *)
Definition type_attr (node_type : option cell) : attrs :=
  match node_type with
  | Some t => if truthy t then [("node_type", of_cell t)] else []
  | None => []
  end.

(** Lines 132-136: the merge into a node that exists. *)
Definition merge_existing (G : DiGraph) (node_id : string) (node_type : option cell)
    (props : attrs) : DiGraph :=
  let G1 :=
    match node_type with
    | Some t => if truthy t then node_setdefault G node_id "node_type" (of_cell t) else G
    | None => G
    end in
  node_update G1 node_id props.

(** Lines 131-140: merge into an existing node, or add a new one. *)
Definition merge_node (G : DiGraph) (ev : string * option cell * attrs)
    : result DiGraph :=
  let '(node_id, node_type, props) := ev in
  if has_node G node_id then Ok (merge_existing G node_id node_type props)
  else add_node G node_id (dict_update (type_attr node_type) props).

(** The graph [merge_node] returns when it returns. *)
Definition merge_node_ok (G : DiGraph) (ev : string * option cell * attrs) : DiGraph :=
  let '(node_id, node_type, props) := ev in
  if has_node G node_id then merge_existing G node_id node_type props
  else put_node G node_id (dict_update (type_attr node_type) props).

Definition add_nodes_from_df (G : DiGraph) (df : option DataFrame)
    (source_label : string) : result DiGraph :=
  match df with
  | None => Ok G
  | Some df =>
      match first_present (columns df) id_aliases with
      | None => Raise (no_id_column source_label)
      | Some id_col =>
          let type_col := first_present (columns df) type_aliases in
          fold_result (fun G row => merge_node G (node_fields id_col type_col row))
            (iterrows df) G
      end
  end.

Definition placeholder_attrs : attrs :=
  [("node_type", VStr "unknown"); ("placeholder", VBool true)].

(** Lines 174-177 for one endpoint.  The call
    [G.add_node(n, node_type="unknown", placeholder=True)] names its two
    keywords itself, neither is a parameter of [add_node], so it always
    binds and runs the body. *)
Definition ensure_node (G : DiGraph) (n : string) : DiGraph :=
  if has_node G n then G else put_node G n placeholder_attrs.

(** Line 171. *)
Definition rel_type_of (rel_col : option string) (row : Series) : value :=
  match rel_col with
  | Some c => if mem c (index row) then of_cell (row_get row c) else VStr "RELATED_TO"
  | None => VStr "RELATED_TO"
  end.

(** Lines 178-179: the data of the edge a row describes. *)
Definition edge_attrs (s_col t_col : string) (rel_col : option string)
    (row : Series) : attrs :=
  dict_update [("relationship", rel_type_of rel_col row)]
    (parse_properties_from_row row [Some s_col; Some t_col; rel_col]).

(** The three values a relation row is read into (lines 169-172, 178-179). *)
Definition relation_fields (s_col t_col : string) (rel_col : option string)
    (row : Series) : string * string * attrs :=
  (py_str (row_get row s_col), py_str (row_get row t_col),
   edge_attrs s_col t_col rel_col row).

(** Lines 173-180: placeholders for unknown endpoints, then the edge. *)
Definition add_relation (G : DiGraph) (ev : string * string * attrs)
    : result DiGraph :=
  let '(src, tgt, a) := ev in
  let G1 := ensure_node G src in
  let G2 := ensure_node G1 tgt in
  add_edge G2 src tgt a.

(** The graph [add_relation] returns when it returns. *)
Definition add_relation_ok (G : DiGraph) (ev : string * string * attrs) : DiGraph :=
  let '(src, tgt, a) := ev in
  let G1 := ensure_node G src in
  let G2 := ensure_node G1 tgt in
  put_edge G2 src tgt a.

Definition add_relation_row (s_col t_col : string) (rel_col : option string)
    (G : DiGraph) (row : Series) : result DiGraph :=
  add_relation G (relation_fields s_col t_col rel_col row).

Definition add_relations (G : DiGraph) (relations_df : option DataFrame)
    : result DiGraph :=
  match relations_df with
  | None => Ok G
  | Some df =>
      match first_present (columns df) source_aliases,
            first_present (columns df) target_aliases with
      | Some s_col, Some t_col =>
          let rel_col := first_present (columns df) relation_aliases in
          fold_result (add_relation_row s_col t_col rel_col) (iterrows df) G
      | _, _ => Raise no_source_target
      end
  end.

Definition build_graph (nodes_doc_df nodes_draw_df relations_df : option DataFrame)
    : result DiGraph :=
  G1 <- add_nodes_from_df empty_graph nodes_doc_df "nodes_doc" ;;
  G2 <- add_nodes_from_df G1 nodes_draw_df "nodes_draw" ;;
  add_relations G2 relations_df.

(** *** What the tables declare *)

(** The node rows of a table as the values they are read into; none when
    the table is absent or has no id column. *)
Definition node_events (df : option DataFrame) : list (string * option cell * attrs) :=
  match df with
  | Some d =>
      match first_present (columns d) id_aliases with
      | Some id_col =>
          map (node_fields id_col (first_present (columns d) type_aliases)) (iterrows d)
      | None => []
      end
  | None => []
  end.

(** The relation rows likewise. *)
Definition edge_events (df : option DataFrame) : list (string * string * attrs) :=
  match df with
  | Some d =>
      match first_present (columns d) source_aliases,
            first_present (columns d) target_aliases with
      | Some s_col, Some t_col =>
          map (relation_fields s_col t_col (first_present (columns d) relation_aliases))
            (iterrows d)
      | _, _ => []
      end
  | None => []
  end.

(** The graph [build_graph] returns when it returns: the node rows of both
    tables, then the relation rows, each with the effect it has when it
    does not raise. *)
Definition assembled (nodes_doc_df nodes_draw_df relations_df : option DataFrame)
    : DiGraph :=
  fold_left add_relation_ok (edge_events relations_df)
    (fold_left merge_node_ok (node_events nodes_doc_df ++ node_events nodes_draw_df)
       empty_graph).
End Assembly.

Definition event_id (ev : string * option cell * attrs) : string := fst (fst ev).

Definition event_pair (ev : string * string * attrs) : string * string :=
  (fst (fst ev), snd (fst ev)).

(** Whether every node row that adds a node binds the keywords of
    [add_node]; a row whose id is already among [seen] only updates and
    cannot fail. *)
Fixpoint node_rows_bind (seen : list string)
    (evs : list (string * option cell * attrs)) : bool :=
  match evs with
  | [] => true
  | ev :: r =>
      if mem (event_id ev) seen then node_rows_bind seen r
      else negb (kwargs_clash add_node_params
                   (dict_update (type_attr (snd (fst ev))) (snd ev)))
           && node_rows_bind (event_id ev :: seen) r
  end.

(** Whether every relation row binds the keywords of [add_edge]. *)
Definition edge_rows_bind (evs : list (string * string * attrs)) : bool :=
  forallb (fun ev => negb (kwargs_clash add_edge_params (snd ev))) evs.

(** [str] of the id cell of every node row. *)
Definition declared_ids (df : option DataFrame) : list string :=
  match df with
  | Some d =>
      match first_present (columns d) id_aliases with
      | Some id_col => map (fun row => py_str (row_get row id_col)) (iterrows d)
      | None => []
      end
  | None => []
  end.

(** [str] of the source and target cells of every relation row. *)
Definition relation_endpoints (df : option DataFrame) : list (string * string) :=
  match df with
  | Some d =>
      match first_present (columns d) source_aliases,
            first_present (columns d) target_aliases with
      | Some s_col, Some t_col =>
          map (fun row => (py_str (row_get row s_col), py_str (row_get row t_col)))
            (iterrows d)
      | _, _ => []
      end
  | None => []
  end.

Definition endpoint_ids (df : option DataFrame) : list string :=
  flat_map (fun p => [fst p; snd p]) (relation_endpoints df).

(** Whether a table lacks a mandatory column. *)
Definition id_missing (df : option DataFrame) : bool :=
  match df with
  | Some d => match first_present (columns d) id_aliases with Some _ => false | None => true end
  | None => false
  end.

Definition endpoints_missing (df : option DataFrame) : bool :=
  match df with
  | Some d =>
      match first_present (columns d) source_aliases,
            first_present (columns d) target_aliases with
      | Some _, Some _ => false
      | _, _ => true
      end
  | None => false
  end.

(** The attribute dictionary [merge_node] leaves at the id of its row, from
    the one found there. *)
Definition merged_attrs (old : option attrs) (node_type : option cell)
    (props : attrs) : attrs :=
  match old with
  | Some a =>
      dict_update
        (match node_type with
         | Some t => if truthy t then dict_setdefault "node_type" (of_cell t) a else a
         | None => a
         end) props
  | None =>
      dict_update []
        (dict_update
           (match node_type with
            | Some t => if truthy t then [("node_type", of_cell t)] else []
            | None => []
            end) props)
  end.

(** ** The export *)

(** One call [net.add_node(node_id, label=, title=, group=)]. *)
Record node_call : Type := {
  nc_id : string;
  nc_label : value;
  nc_title : string;
  nc_group : value
}.

(** One call [net.add_edge(u, v, title=, label=)]. *)
Record edge_call : Type := {
  ec_source : string;
  ec_target : string;
  ec_title : string;
  ec_label : value
}.

(** [s.replace('_', ' ')] *)
Fixpoint replace_underscore (s : string) : string :=
  match s with
  | EmptyString => EmptyString
  | String c r =>
      String (if (c =? "_")%char then " "%char else c) (replace_underscore r)
  end.

(** [isinstance(v, (dict, list))] *)
Definition is_container (v : value) : bool :=
  match v with
  | VJson (JArr _) | VJson (JObj _) => true
  | _ => false
  end.

(** [G.edges(data=True)]: the nodes in their order, each with its outgoing
    edges in the order they were added. *)
Definition out_edges (G : DiGraph) : list (string * string * attrs) :=
  flat_map (fun u => filter (fun e => fst (fst e) =? u) (edges G)) (keys (nodes G)).

Section PyvisExport.
(** [json.dumps] on a decoded list or dictionary, [str] on a decoded
    value, [str.title], and the truth value of a float literal. *)
Variable json_dumps : json -> string.
Variable str_json : json -> string.
Variable str_title : string -> string.
Variable float_truthy : string -> bool.

(** [str(v)] *)
Definition value_str (v : value) : string :=
  match v with
  | VStr s => s
  | VNaN => "nan"
  | VInt z => NilZero.string_of_int (Z.to_int z)
  | VBool true => "True"
  | VBool false => "False"
  | VJson j => str_json j
  end.

(** The truth value of [v] in [v or w]. *)
Definition value_truthy (v : value) : bool :=
  match v with
  | VStr s => negb (s =? "")
  | VNaN => true
  | VInt z => negb (z =? 0)%Z
  | VBool b => b
  | VJson JNull => false
  | VJson (JBool b) => b
  | VJson (JInt z) => negb (z =? 0)%Z
  | VJson (JFloat lit) => float_truthy lit
  | VJson (JStr s) => negb (s =? "")
  | VJson (JArr l) => match l with [] => false | _ => true end
  | VJson (JObj l) => match l with [] => false | _ => true end
  end.

(** [data.get(k) or rest] *)
Definition get_or (data : attrs) (k : string) (rest : value) : value :=
  match dict_get k data with
  | Some v => if value_truthy v then v else rest
  | None => rest
  end.

(** [data.get(k, default)] *)
Definition get_default (data : attrs) (k : string) (default : value) : value :=
  match dict_get k data with
  | Some v => v
  | None => default
  end.

(** Lines 209-220 for one node. *)
Definition node_call_of (node_id : string) (data : attrs) : node_call :=
  let label := get_or data "part_number" (get_or data "name" (VStr node_id)) in
  let title_lines :=
    ("Type: " ++ value_str (get_default data "node_type" (VStr "N/A")))
    :: map (fun kv =>
              let v_text :=
                if is_container (snd kv) then
                  match snd kv with VJson j => json_dumps j | v => value_str v end
                else value_str (snd kv) in
              str_title (replace_underscore (fst kv)) ++ ": " ++ v_text)
         (filter (fun kv => negb (fst kv =? "node_type")) data) in
  {| nc_id := node_id;
     nc_label := label;
     nc_title := String.concat "<br>" title_lines;
     nc_group := get_default data "node_type" (VStr "default") |}.

(** Lines 224-226 for one edge. *)
Definition edge_call_of (e : string * string * attrs) : edge_call :=
  let edata := snd e in
  {| ec_source := fst (fst e);
     ec_target := snd (fst e);
     ec_title :=
       String.concat "; "
         (map (fun kv => fst kv ++ ": " ++ value_str (snd kv)) edata);
     ec_label :=
       get_default edata "relationship"
         (get_default edata "relationship_type" (VStr "")) |}.

(** [export_pyvis] up to the calls it makes on the network, which it then
    writes out; [None] is the return without writing on an empty graph. *)
Definition export_pyvis (G : DiGraph) : option (list node_call * list edge_call) :=
  if (List.length (nodes G) =? 0)%nat then None
  else Some (map (fun nd => node_call_of (fst nd) (snd nd)) (nodes G),
             map edge_call_of (out_edges G)).
End PyvisExport.

(** ** A decoder for a subset of JSON

    An instance of [json.loads] to run the script on concrete tables:
    arrays, objects, integers, strings without escapes, [true], [false]
    and [null].  Outside this subset it raises. *)

Definition json_ws (c : ascii) : bool :=
  let n := nat_of_ascii c in
  ((n =? 32) || (n =? 9) || (n =? 10) || (n =? 13))%nat.

Fixpoint skip_ws (s : string) : string :=
  match s with
  | String c r => if json_ws c then skip_ws r else s
  | EmptyString => s
  end.

Definition digit_of (c : ascii) : option Z :=
  let n := nat_of_ascii c in
  if ((48 <=? n) && (n <=? 57))%nat then Some (Z.of_nat (n - 48)) else None.

Fixpoint read_digits (s : string) (acc : Z) : Z * string :=
  match s with
  | String c r =>
      match digit_of c with
      | Some d => read_digits r (10 * acc + d)%Z
      | None => (acc, s)
      end
  | EmptyString => (acc, s)
  end.

(** An integer literal without its sign: no leading zero, no fraction and no
    exponent. *)
Definition read_nat (s : string) : option (Z * string) :=
  match s with
  | String c r =>
      match digit_of c with
      | Some d =>
          let '(n, rest) := read_digits r d in
          let leading_zero :=
            (d =? 0)%Z && match r with
                          | String c' _ => match digit_of c' with Some _ => true | None => false end
                          | EmptyString => false
                          end in
          let is_float :=
            match rest with
            | String c' _ => (c' =? ".")%char || (c' =? "e")%char || (c' =? "E")%char
            | EmptyString => false
            end in
          if leading_zero || is_float then None else Some (n, rest)
      | None => None
      end
  | EmptyString => None
  end.

Definition dquote : ascii := ascii_of_nat 34.

(** The characters of a string literal up to its closing quote. *)
Fixpoint read_string (s : string) : option (string * string) :=
  match s with
  | String c r =>
      if (c =? dquote)%char then Some (EmptyString, r)
      else if (c =? "\")%char || (nat_of_ascii c <? 32)%nat then None
      else match read_string r with
           | Some (x, rest) => Some (String c x, rest)
           | None => None
           end
  | EmptyString => None
  end.

Definition read_word (w : string) (j : json) (s : string) : option (json * string) :=
  if prefix w s then Some (j, substring (String.length w) (String.length s) s) else None.

Fixpoint parse_value (fuel : nat) (s : string) : option (json * string) :=
  match fuel with
  | 0 => None
  | S f =>
      match skip_ws s with
      | String c r =>
          if (c =? "[")%char then
            match skip_ws r with
            | String c' r' =>
                if (c' =? "]")%char then Some (JArr [], r')
                else match parse_elements f r with
                     | Some (l, rest) => Some (JArr l, rest)
                     | None => None
                     end
            | EmptyString => None
            end
          else if (c =? "{")%char then
            match skip_ws r with
            | String c' r' =>
                if (c' =? "}")%char then Some (JObj [], r')
                else match parse_members f r with
                     | Some (l, rest) => Some (JObj l, rest)
                     | None => None
                     end
            | EmptyString => None
            end
          else if (c =? dquote)%char then
            match read_string r with
            | Some (x, rest) => Some (JStr x, rest)
            | None => None
            end
          else if (c =? "-")%char then
            match read_nat r with
            | Some (n, rest) => Some (JInt (- n), rest)
            | None => None
            end
          else if (c =? "t")%char then read_word "true" (JBool true) (String c r)
          else if (c =? "f")%char then read_word "false" (JBool false) (String c r)
          else if (c =? "n")%char then read_word "null" JNull (String c r)
          else match read_nat (String c r) with
               | Some (n, rest) => Some (JInt n, rest)
               | None => None
               end
      | EmptyString => None
      end
  end

with parse_elements (fuel : nat) (s : string) : option (list json * string) :=
  match fuel with
  | 0 => None
  | S f =>
      match parse_value f s with
      | Some (j, rest) =>
          match skip_ws rest with
          | String c r =>
              if (c =? ",")%char then
                match parse_elements f r with
                | Some (l, rest') => Some (j :: l, rest')
                | None => None
                end
              else if (c =? "]")%char then Some ([j], r)
              else None
          | EmptyString => None
          end
      | None => None
      end
  end

with parse_members (fuel : nat) (s : string) : option (list (string * json) * string) :=
  match fuel with
  | 0 => None
  | S f =>
      match skip_ws s with
      | String q r0 =>
          if (q =? dquote)%char then
            match read_string r0 with
            | Some (k, rest0) =>
                match skip_ws rest0 with
                | String colon rest1 =>
                    if (colon =? ":")%char then
                      match parse_value f rest1 with
                      | Some (j, rest) =>
                          match skip_ws rest with
                          | String c r =>
                              if (c =? ",")%char then
                                match parse_members f r with
                                | Some (l, rest') => Some ((k, j) :: l, rest')
                                | None => None
                                end
                              else if (c =? "}")%char then Some ([(k, j)], r)
                              else None
                          | EmptyString => None
                          end
                      | None => None
                      end
                    else None
                | EmptyString => None
                end
            | None => None
            end
          else None
      | EmptyString => None
      end
  end.

Definition json_loads_subset (s : string) : result json :=
  match parse_value (S (String.length s)) s with
  | Some (j, rest) =>
      match skip_ws rest with
      | EmptyString => Ok j
      | String _ _ => Raise (JSONDecodeError "Extra data")
      end
  | None => Raise (JSONDecodeError "Expecting value")
  end.

(** ** Renderings for running the export

    Instances of [json.dumps], [str] and [str.title] on the values the
    subset decoder produces and on ASCII text. *)

#[warnings="-register-all"] Fixpoint json_text (py : bool) (j : json) : string :=
  let quote := if py then "'" else String dquote EmptyString in
  match j with
  | JNull => if py then "None" else "null"
  | JBool true => if py then "True" else "true"
  | JBool false => if py then "False" else "false"
  | JInt z => NilZero.string_of_int (Z.to_int z)
  | JFloat lit => lit
  | JStr s => quote ++ s ++ quote
  | JArr l => "[" ++ String.concat ", " (map (json_text py) l) ++ "]"
  | JObj l =>
      "{" ++ String.concat ", "
               (map (fun kv => match kv with
                               | (k, v) => quote ++ k ++ quote ++ ": " ++ json_text py v
                               end) l) ++ "}"
  end.

Definition is_lower (c : ascii) : bool :=
  let n := nat_of_ascii c in ((97 <=? n) && (n <=? 122))%nat.

Definition is_upper (c : ascii) : bool :=
  let n := nat_of_ascii c in ((65 <=? n) && (n <=? 90))%nat.

(** [str.title] on ASCII text: a letter that follows a letter is lowered,
    any other letter is raised. *)
Fixpoint ascii_title_from (after_letter : bool) (s : string) : string :=
  match s with
  | EmptyString => EmptyString
  | String c r =>
      let n := nat_of_ascii c in
      let c' :=
        if after_letter then (if is_upper c then ascii_of_nat (n + 32) else c)
        else (if is_lower c then ascii_of_nat (n - 32) else c) in
      String c' (ascii_title_from (is_lower c || is_upper c) r)
  end.

Definition ascii_title (s : string) : string := ascii_title_from false s.

(** A float literal is true when one of its digits before the exponent is
    not zero. *)
Fixpoint mantissa_nonzero (lit : string) : bool :=
  match lit with
  | EmptyString => false
  | String c r =>
      if (c =? "e")%char || (c =? "E")%char then false
      else let n := nat_of_ascii c in
           ((49 <=? n) && (n <=? 57))%nat || mantissa_nonzero r
  end.

Definition export_sample (G : DiGraph) : option (list node_call * list edge_call) :=
  export_pyvis (json_text false) (json_text true) ascii_title mantissa_nonzero G.

(** ** Sample tables *)

Definition table_a : DataFrame :=
  {| columns := ["id"; "type"; "name"];
     rows := [[CStr "n1"; CStr "Part"; CStr "Bolt"]] |}.

Definition table_b : DataFrame :=
  {| columns := ["id"; "type"; "name"];
     rows := [[CStr "n2"; CStr "Part"; CStr "Nut"]] |}.

Definition table_rel : DataFrame :=
  {| columns := ["source_id"; "target_id"; "relationship_type"];
     rows := [[CStr "n1"; CStr "n2"; CStr "fastens"];
              [CStr "n1"; CStr "n3"; CStr "refs"]] |}.

(** A second declaration of n1, with another type. *)
Definition table_retype : DataFrame :=
  {| columns := ["id"; "type"; "name"];
     rows := [[CStr "n1"; CStr "Tool"; CStr "Hex bolt"]] |}.

(** The graph of the three sample tables. *)
Definition sample_graph : DiGraph :=
  Eval vm_compute in
    match build_graph json_loads_subset (Some table_a) (Some table_b) (Some table_rel) with
    | Ok G => G
    | Raise _ => empty_graph
    end.

(** *** What the node rows of one id amount to *)

(** The first type, among the rows of [x], that passes [if node_type]. *)
Fixpoint first_type (x : string) (evs : list (string * option cell * attrs))
    : option cell :=
  match evs with
  | [] => None
  | (node_id, node_type, _) :: r =>
      if node_id =? x then
        match node_type with
        | Some t => if truthy t then Some t else first_type x r
        | None => first_type x r
        end
      else first_type x r
  end.

(** The value that the last row of [x] with the property [k] gives it. *)
Fixpoint last_prop (x k : string) (evs : list (string * option cell * attrs))
    : option value :=
  match evs with
  | [] => None
  | (node_id, _, props) :: r =>
      match last_prop x k r with
      | Some v => Some v
      | None => if node_id =? x then dict_get k props else None
      end
  end.

(** The attribute [k] of an entity that may not exist yet. *)
Definition attr_of (cur : option attrs) (k : string) : option value :=
  match cur with
  | Some a => dict_get k a
  | None => None
  end.

(** The attributes of [x] across one [merge_node]. *)
Definition track (x : string) (cur : option attrs)
    (ev : string * option cell * attrs) : option attrs :=
  if event_id ev =? x then Some (merged_attrs cur (snd (fst ev)) (snd ev)) else cur.

(** *** Where attribute keys come from *)

(** The columns of a node table that are read as properties: all but the
    id column and the type column. *)
Definition node_property_columns (df : option DataFrame) : list string :=
  match df with
  | Some d =>
      match first_present (columns d) id_aliases with
      | Some id_col =>
          filter (fun k => negb (in_drop [Some id_col;
                                          first_present (columns d) type_aliases] k))
            (columns d)
      | None => []
      end
  | None => []
  end.

(** The columns of the relation table that are read as properties. *)
Definition edge_property_columns (df : option DataFrame) : list string :=
  match df with
  | Some d =>
      match first_present (columns d) source_aliases,
            first_present (columns d) target_aliases with
      | Some s_col, Some t_col =>
          filter (fun k => negb (in_drop [Some s_col; Some t_col;
                                          first_present (columns d) relation_aliases] k))
            (columns d)
      | _, _ => []
      end
  | None => []
  end.

(** The keys of an attribute dictionary that may not exist yet. *)
Definition keys_of (cur : option attrs) : list string :=
  match cur with
  | Some a => keys a
  | None => []
  end.

(** The keys a node row writes: its properties, and node_type when its
    type passes [if node_type]. *)
Definition writes (ev : string * option cell * attrs) (k : string) : Prop :=
  In k (keys (snd ev))
  \/ (k = "node_type"
      /\ match snd (fst ev) with Some t => truthy t = true | None => False end).

(** The value that the last relation row between the ordered pair [e] with
    the attribute [k] gives it. *)
Fixpoint last_edge_attr (e : string * string) (k : string)
    (evs : list (string * string * attrs)) : option value :=
  match evs with
  | [] => None
  | ev :: r =>
      match last_edge_attr e k r with
      | Some v => Some v
      | None => if pair_eqb (event_pair ev) e then dict_get k (snd ev) else None
      end
  end.

(** A value that is neither the empty string nor the missing marker. *)
Definition nonempty_value (v : value) : Prop := v <> VStr "" /\ v <> VNaN.

(** *** Order and size *)

(** The elements of [l] not yet in [seen], each at its first appearance:
    the order in which a dictionary gains the keys written to it. *)
Fixpoint first_seen {K : Type} `{EqKey K} (seen l : list K) : list K :=
  match l with
  | [] => []
  | x :: r =>
      if existsb (keqb x) seen then first_seen seen r
      else x :: first_seen (x :: seen) r
  end.

(** [len(df)] of a table that may be absent. *)
Definition n_rows (df : option DataFrame) : nat :=
  match df with
  | Some d => List.length (rows d)
  | None => 0
  end.

(** What [add_relation] does to the edge dictionary. *)
Definition edge_step (es : dict (string * string) attrs)
    (ev : string * string * attrs) : dict (string * string) attrs :=
  dict_set (event_pair ev)
    (dict_update (match dict_get (event_pair ev) es with
                  | Some d => d
                  | None => []
                  end) (snd ev)) es.

Definition pair_dec (p q : string * string) : {p = q} + {p <> q} :=
  reflect_dec _ _ (pair_eqb_spec p q).

(** Two relation rows with the same ordered endpoints. *)
Definition table_rel_twice : DataFrame :=
  {| columns := ["source_id"; "target_id"; "relationship_type"];
     rows := [[CStr "n1"; CStr "n2"; CStr "fastens"];
              [CStr "n1"; CStr "n2"; CStr "refs"]] |}.

(** An integer id cell, a missing one and the strings that render alike. *)
Definition table_mixed_ids : DataFrame :=
  {| columns := ["id"; "name"];
     rows := [[CInt 7; CStr "seven"]; [CNaN; CStr "blank"]] |}.

Definition table_rel_mixed : DataFrame :=
  {| columns := ["source"; "target"];
     rows := [[CStr "7"; CStr "nan"]; [CInt 7; CInt 8]] |}.


(** A relation table without a relation-type column. *)
Definition table_rel_plain : DataFrame :=
  {| columns := ["source"; "target"; "weight"];
     rows := [[CStr "a"; CStr "b"; CStr "3"]; [CStr "b"; CStr "c"; CStr ""]] |}.

(** A relation table whose relation-type cells are empty and missing. *)
Definition table_rel_blank : DataFrame :=
  {| columns := ["source_id"; "target_id"; "relationship_type"];
     rows := [[CStr "n1"; CStr "n2"; CStr ""]; [CStr "n1"; CStr "n3"; CNaN]] |}.

(** Tables without their mandatory columns. *)
Definition table_no_id : DataFrame :=
  {| columns := ["name"; "type"]; rows := [[CStr "Bolt"; CStr "Part"]] |}.

Definition table_rel_bad : DataFrame :=
  {| columns := ["src"; "dst"]; rows := [[CStr "n1"; CStr "n2"]] |}.

(** Three relation rows whose second edge leaves another node than the
    first and the third. *)
Definition table_rel_abc : DataFrame :=
  {| columns := ["source"; "target"];
     rows := [[CStr "a"; CStr "b"]; [CStr "b"; CStr "c"]; [CStr "a"; CStr "c"]] |}.

(** Tables with a property column named after a parameter of [add_node]
    and of [add_edge]. *)
Definition table_self : DataFrame :=
  {| columns := ["id"; "self"]; rows := [[CStr "n1"; CStr "x"]] |}.

Definition table_rel_u : DataFrame :=
  {| columns := ["source"; "target"; "u_of_edge"];
     rows := [[CStr "n1"; CStr "n2"; CStr "x"]] |}.

(** Two rows for the id X; the type field of the first is blank in the
    CSV file, which [pd.read_csv] reads as [nan]. *)
Definition table_blank_type : DataFrame :=
  {| columns := ["id"; "type"; "name"];
     rows := [[CStr "X"; CNaN; CStr "first"]; [CStr "X"; CStr "Part"; CStr "second"]] |}.

(** * Properties *)

Open Scope list_scope.

(** ** Dictionaries *)

Section DictFacts.
Context {K V : Type} `{EqKey K}.
Implicit Types (k : K) (v : V) (d e : dict K V).

Lemma keqb_refl k : keqb k k = true.
Proof. destruct (keqb_spec k k); congruence. Qed.

Lemma keqb_neq k k' : k <> k' -> keqb k k' = false.
Proof. intros Hne; destruct (keqb_spec k k'); congruence. Qed.

Lemma dict_get_set k k' v d :
  dict_get k (dict_set k' v d) = if keqb k k' then Some v else dict_get k d.
Proof.
  induction d as [|[k0 v0] r IH]; simpl.
  - reflexivity.
  - destruct (keqb_spec k' k0) as [->|Hne]; simpl.
    + destruct (keqb k k0); reflexivity.
    + rewrite IH. destruct (keqb_spec k k0) as [->|Hne'].
      * rewrite keqb_neq by congruence. reflexivity.
      * reflexivity.
Qed.

Lemma dict_get_set_same k v d : dict_get k (dict_set k v d) = Some v.
Proof. rewrite dict_get_set, keqb_refl. reflexivity. Qed.

Lemma dict_get_set_other k k' v d :
  k <> k' -> dict_get k (dict_set k' v d) = dict_get k d.
Proof. intros Hne. rewrite dict_get_set, keqb_neq by assumption. reflexivity. Qed.

Lemma dict_get_None k d : dict_get k d = None <-> ~ In k (keys d).
Proof.
  induction d as [|[k0 v0] r IH]; simpl.
  - tauto.
  - destruct (keqb_spec k k0) as [->|Hne].
    + split; [discriminate | intros Hn; exfalso; apply Hn; now left].
    + rewrite IH. split; [intros Hn [E|Hin]; [congruence | tauto] | tauto].
Qed.

Lemma dict_has_In k d : dict_has k d = true <-> In k (keys d).
Proof.
  unfold dict_has. pose proof (dict_get_None k d) as Hn.
  destruct (dict_get k d).
  - split; [intros _ | reflexivity].
    destruct (in_dec (fun x y => reflect_dec _ _ (keqb_spec x y)) k (keys d)) as [Hin|Hout];
      [assumption | apply Hn in Hout; discriminate].
  - split; [discriminate | intros Hin; exfalso; now apply (proj1 Hn)].
Qed.

Lemma dict_has_false k d : dict_has k d = false <-> ~ In k (keys d).
Proof.
  rewrite <- dict_has_In. destruct (dict_has k d); split; congruence.
Qed.

Lemma dict_get_In k v d : dict_get k d = Some v -> In (k, v) d.
Proof.
  induction d as [|[k0 v0] r IH]; simpl; [discriminate|].
  destruct (keqb_spec k k0) as [->|Hne].
  - intros [= ->]. now left.
  - intros Hg. right. now apply IH.
Qed.

Lemma In_dict_get k v d : NoDup (keys d) -> In (k, v) d -> dict_get k d = Some v.
Proof.
  induction d as [|[k0 v0] r IH]; simpl; [tauto|].
  intros Hnd [E|Hin].
  - inversion E; subst. now rewrite keqb_refl.
  - inversion Hnd as [|? ? Hout Hnd']; subst.
    destruct (keqb_spec k k0) as [->|Hne].
    + exfalso. apply Hout. change (In (fst (k0, v)) (map fst r)). now apply in_map.
    + now apply IH.
Qed.

Lemma keys_dict_set k v d :
  keys (dict_set k v d) = if dict_has k d then keys d else keys d ++ [k].
Proof.
  unfold dict_has. induction d as [|[k0 v0] r IH]; simpl.
  - reflexivity.
  - destruct (keqb_spec k k0) as [->|Hne]; simpl.
    + reflexivity.
    + rewrite IH. destruct (dict_get k r); reflexivity.
Qed.

Lemma In_keys_dict_set k k' v d :
  In k (keys (dict_set k' v d)) <-> k = k' \/ In k (keys d).
Proof.
  rewrite keys_dict_set. destruct (dict_has k' d) eqn:Hh.
  - apply dict_has_In in Hh. split; [tauto | intros [->|Hin]; assumption].
  - rewrite in_app_iff; simpl. split; [intros [Hin|[E|[]]]; auto | intros [->|Hin]; auto].
Qed.

Lemma NoDup_dict_set k v d : NoDup (keys d) -> NoDup (keys (dict_set k v d)).
Proof.
  intros Hnd. rewrite keys_dict_set. destruct (dict_has k d) eqn:Hh.
  - assumption.
  - apply dict_has_false in Hh. apply NoDup_app; [assumption | | ].
    + constructor; [simpl; tauto | constructor].
    + intros x Hx [<-|[]]. contradiction.
Qed.

Lemma dict_set_set k v v' d : dict_set k v' (dict_set k v d) = dict_set k v' d.
Proof.
  induction d as [|[k0 v0] r IH]; simpl.
  - now rewrite keqb_refl.
  - destruct (keqb_spec k k0) as [->|Hne]; simpl.
    + now rewrite keqb_refl.
    + rewrite keqb_neq by assumption. now rewrite IH.
Qed.

Lemma length_dict_set k v d :
  List.length (dict_set k v d)
  = if dict_has k d then List.length d else S (List.length d).
Proof.
  pose proof (keys_dict_set k v d) as Hk. apply (f_equal (@List.length K)) in Hk.
  unfold keys in Hk. rewrite length_map in Hk. rewrite Hk.
  destruct (dict_has k d).
  - now rewrite length_map.
  - rewrite length_app, length_map; simpl. lia.
Qed.

Lemma NoDup_dict_update d e : NoDup (keys d) -> NoDup (keys (dict_update d e)).
Proof.
  unfold dict_update. revert d.
  induction e as [|[k v] r IH]; simpl; intros d Hnd; [assumption|].
  apply IH. now apply NoDup_dict_set.
Qed.

Lemma In_keys_dict_update k d e :
  In k (keys (dict_update d e)) <-> In k (keys d) \/ In k (keys e).
Proof.
  unfold dict_update. revert d.
  induction e as [|[k0 v0] r IH]; simpl; intros d; [tauto|].
  rewrite IH, In_keys_dict_set. split; intuition congruence.
Qed.

(** A key that [e] does not bind keeps its value through [d.update(e)]. *)
Lemma dict_get_update_other k d e :
  dict_get k e = None -> dict_get k (dict_update d e) = dict_get k d.
Proof.
  unfold dict_update. revert d.
  induction e as [|[k0 v0] r IH]; simpl; intros d; [reflexivity|].
  destruct (keqb_spec k k0) as [->|Hne]; [discriminate|].
  intros Hg. rewrite IH by assumption. now apply dict_get_set_other.
Qed.

(** A key that [e] binds once takes the value [e] gives it. *)
Lemma dict_get_update_in k v d e :
  NoDup (keys e) -> dict_get k e = Some v -> dict_get k (dict_update d e) = Some v.
Proof.
  unfold dict_update. revert d.
  induction e as [|[k0 v0] r IH]; simpl; intros d Hnd; [discriminate|].
  inversion Hnd as [|? ? Hout Hnd']; subst.
  destruct (keqb_spec k k0) as [->|Hne].
  - intros [= ->]. fold (dict_update (dict_set k0 v d) r).
    rewrite dict_get_update_other by now apply dict_get_None.
    apply dict_get_set_same.
  - intros Hg. now apply IH.
Qed.

Lemma dict_update_nil_l e :
  NoDup (keys e) -> dict_update [] e = e.
Proof.
  intros Hnd.
  enough (Hgen : forall d, (forall k, In k (keys d) -> ~ In k (keys e)) ->
                           dict_update d e = d ++ e) by (apply (Hgen []); simpl; tauto).
  unfold dict_update. induction e as [|[k0 v0] r IH]; simpl; intros d Hdis.
  - now rewrite app_nil_r.
  - inversion Hnd as [|? ? Hout Hnd']; subst.
    assert (Hset : dict_set k0 v0 d = d ++ [(k0, v0)]).
    { clear - Hdis. induction d as [|[k1 v1] d IHd]; simpl; [reflexivity|].
      rewrite keqb_neq.
      - f_equal. apply IHd. intros k Hin. apply Hdis. now right.
      - intros ->. apply (Hdis k1); simpl; auto. }
    rewrite Hset, IH; [now rewrite <- app_assoc | assumption |].
    intros k Hin Hin'. unfold keys in Hin. rewrite map_app, in_app_iff in Hin.
    destruct Hin as [Hin|[<-|[]]]; [apply (Hdis k Hin); now right | contradiction].
Qed.
End DictFacts.

(** ** Rows and columns *)

Lemma mem_In (c : string) (l : list string) : mem c l = true <-> In c l.
Proof.
  unfold mem. rewrite existsb_exists. split.
  - intros (x & Hin & Heq). apply String.eqb_eq in Heq. now subst.
  - intros Hin. exists c. split; [assumption | apply String.eqb_refl].
Qed.

Lemma mem_false (c : string) (l : list string) : mem c l = false <-> ~ In c l.
Proof. rewrite <- mem_In. destruct (mem c l); split; congruence. Qed.

Lemma index_mk_row (cols : list string) (cells : list cell) :
  index (mk_row cols cells) = cols.
Proof.
  unfold index. revert cells.
  induction cols as [|c cs IH]; intros cells; simpl; [reflexivity|].
  destruct cells; simpl; now rewrite IH.
Qed.

Lemma index_iterrows (df : DataFrame) (row : Series) :
  In row (iterrows df) -> index row = columns df.
Proof.
  unfold iterrows. rewrite in_map_iff. intros (cells & <- & _). apply index_mk_row.
Qed.

(** The loop over the candidates stops at the first one among the columns. *)
Lemma first_present_Some (cols candidates : list string) (c : string) :
  first_present cols candidates = Some c ->
  In c cols /\
  exists before after,
    candidates = before ++ c :: after /\ forall x, In x before -> ~ In x cols.
Proof.
  unfold first_present.
  induction candidates as [|a l IH]; simpl; [discriminate|].
  destruct (mem a cols) eqn:Hm.
  - intros [= ->]. split; [now apply mem_In|].
    exists [], l. split; [reflexivity | simpl; tauto].
  - intros Hf. destruct (IH Hf) as (Hin & before & after & -> & Hb).
    split; [assumption|]. exists (a :: before), after. split; [reflexivity|].
    intros x [<-|Hx]; [now apply mem_false | now apply Hb].
Qed.

Lemma first_present_None (cols candidates : list string) :
  first_present cols candidates = None <-> forall x, In x candidates -> ~ In x cols.
Proof.
  unfold first_present. split.
  - intros Hf x Hx. apply mem_false. now apply (find_none _ _ Hf).
  - intros Hall. induction candidates as [|a l IH]; simpl; [reflexivity|].
    destruct (mem a cols) eqn:Hm.
    + apply mem_In in Hm. exfalso. apply (Hall a); simpl; auto.
    + apply IH. intros x Hx. apply Hall. now right.
Qed.

(** ** Steps on the graph *)

Lemma fold_left_map {A B C : Type} (f : A -> C -> A) (g : B -> C) (l : list B) (a : A) :
  fold_left (fun acc x => f acc (g x)) l a = fold_left f (map g l) a.
Proof. revert a. induction l as [|x l IH]; intros a; simpl; [reflexivity | apply IH]. Qed.

Lemma nodes_add_node (G : DiGraph) (n : string) (a : attrs) :
  nodes (put_node G n a)
  = dict_set n (dict_update (match dict_get n (nodes G) with
                             | Some old => old
                             | None => []
                             end) a) (nodes G).
Proof. unfold put_node. destruct (dict_get n (nodes G)); reflexivity. Qed.

Lemma edges_add_node (G : DiGraph) (n : string) (a : attrs) :
  edges (put_node G n a) = edges G.
Proof. unfold put_node. destruct (dict_get n (nodes G)); reflexivity. Qed.

(** [merge_node_ok] writes one entry of the node dictionary and nothing else. *)
Lemma nodes_merge_node (G : DiGraph) (node_id : string) (node_type : option cell)
    (props : attrs) :
  nodes (merge_node_ok G (node_id, node_type, props))
  = dict_set node_id (merged_attrs (dict_get node_id (nodes G)) node_type props) (nodes G).
Proof.
  unfold merge_node_ok, merge_existing, type_attr, has_node, dict_has, merged_attrs.
  destruct (dict_get node_id (nodes G)) as [a|] eqn:Hg.
  - destruct node_type as [t|]; [destruct (truthy t)|];
      unfold node_update, node_setdefault; rewrite ?Hg; simpl;
      rewrite ?dict_get_set_same; simpl; rewrite ?Hg, ?dict_set_set; reflexivity.
  - rewrite nodes_add_node, Hg. reflexivity.
Qed.

Lemma edges_merge_node (G : DiGraph) (ev : string * option cell * attrs) :
  edges (merge_node_ok G ev) = edges G.
Proof.
  destruct ev as [[node_id node_type] props].
  unfold merge_node_ok, merge_existing, has_node, dict_has.
  destruct (dict_get node_id (nodes G)) as [a|] eqn:Hg.
  - destruct node_type as [t|]; [destruct (truthy t)|];
      unfold node_update, node_setdefault; rewrite ?Hg; simpl;
      rewrite ?dict_get_set_same; simpl; rewrite ?Hg; reflexivity.
  - apply edges_add_node.
Qed.

Lemma nodes_ensure_node (G : DiGraph) (n : string) :
  nodes (ensure_node G n)
  = if dict_has n (nodes G) then nodes G else dict_set n placeholder_attrs (nodes G).
Proof.
  unfold ensure_node, has_node, dict_has.
  destruct (dict_get n (nodes G)) eqn:Hg; [reflexivity|].
  rewrite nodes_add_node, Hg. reflexivity.
Qed.

Lemma edges_ensure_node (G : DiGraph) (n : string) :
  edges (ensure_node G n) = edges G.
Proof.
  unfold ensure_node. destruct (has_node G n); [reflexivity | apply edges_add_node].
Qed.

Lemma has_node_ensure_node (G : DiGraph) (n m : string) :
  has_node (ensure_node G n) m = (m =? n) || has_node G m.
Proof.
  unfold has_node at 1. unfold dict_has at 1. rewrite nodes_ensure_node.
  unfold has_node. destruct (dict_has n (nodes G)) eqn:Hh.
  - destruct (String.eqb_spec m n) as [->|Hne]; simpl.
    + unfold dict_has in *. destruct (dict_get n (nodes G)); congruence.
    + reflexivity.
  - rewrite dict_get_set. simpl. destruct (m =? n); reflexivity.
Qed.

(** With both endpoints present, [put_edge] leaves the nodes alone. *)
Lemma nodes_add_relation (G : DiGraph) (src tgt : string) (a : attrs) :
  nodes (add_relation_ok G (src, tgt, a)) = nodes (ensure_node (ensure_node G src) tgt).
Proof.
  unfold add_relation_ok, put_edge.
  assert (Hs : has_node (ensure_node (ensure_node G src) tgt) src = true).
  { rewrite !has_node_ensure_node, String.eqb_refl. now rewrite orb_true_r. }
  rewrite Hs.
  assert (Ht : has_node (ensure_node (ensure_node G src) tgt) tgt = true).
  { rewrite has_node_ensure_node, String.eqb_refl. reflexivity. }
  rewrite Ht. reflexivity.
Qed.

Lemma edges_add_relation (G : DiGraph) (src tgt : string) (a : attrs) :
  edges (add_relation_ok G (src, tgt, a))
  = dict_set (src, tgt)
      (dict_update (match dict_get (src, tgt) (edges G) with
                    | Some d => d
                    | None => []
                    end) a) (edges G).
Proof.
  unfold add_relation_ok, put_edge.
  assert (Hs : has_node (ensure_node (ensure_node G src) tgt) src = true).
  { rewrite !has_node_ensure_node, String.eqb_refl. now rewrite orb_true_r. }
  rewrite Hs.
  assert (Ht : has_node (ensure_node (ensure_node G src) tgt) tgt = true).
  { rewrite has_node_ensure_node, String.eqb_refl. reflexivity. }
  rewrite Ht. simpl. rewrite !edges_ensure_node. reflexivity.
Qed.

(** ** The two phases of [build_graph] *)

Lemma edges_node_phase (evs : list (string * option cell * attrs)) (G : DiGraph) :
  edges (fold_left merge_node_ok evs G) = edges G.
Proof.
  revert G. induction evs as [|ev evs IH]; intros G; simpl; [reflexivity|].
  rewrite IH. apply edges_merge_node.
Qed.

Lemma NoDup_nodes_merge_node (G : DiGraph) (ev : string * option cell * attrs) :
  NoDup (keys (nodes G)) -> NoDup (keys (nodes (merge_node_ok G ev))).
Proof.
  destruct ev as [[node_id node_type] props]. rewrite nodes_merge_node.
  apply NoDup_dict_set.
Qed.

Lemma NoDup_nodes_node_phase (evs : list (string * option cell * attrs)) (G : DiGraph) :
  NoDup (keys (nodes G)) -> NoDup (keys (nodes (fold_left merge_node_ok evs G))).
Proof.
  revert G. induction evs as [|ev evs IH]; intros G Hnd; simpl; [assumption|].
  apply IH. now apply NoDup_nodes_merge_node.
Qed.

Lemma In_nodes_node_phase (evs : list (string * option cell * attrs)) (G : DiGraph)
    (x : string) :
  In x (keys (nodes (fold_left merge_node_ok evs G)))
  <-> In x (keys (nodes G)) \/ In x (map event_id evs).
Proof.
  revert G. induction evs as [|ev evs IH]; intros G; simpl; [tauto|].
  rewrite IH. destruct ev as [[node_id node_type] props].
  rewrite nodes_merge_node, In_keys_dict_set. unfold event_id; simpl.
  split; intuition congruence.
Qed.

Lemma get_nodes_ensure_node (G : DiGraph) (n x : string) :
  dict_get x (nodes (ensure_node G n))
  = match dict_get x (nodes G) with
    | Some old => Some old
    | None => if x =? n then Some placeholder_attrs else None
    end.
Proof.
  rewrite nodes_ensure_node. unfold dict_has.
  destruct (dict_get n (nodes G)) eqn:Hn.
  - destruct (dict_get x (nodes G)) eqn:Hx; [reflexivity|].
    destruct (String.eqb_spec x n) as [->|Hne]; [congruence | reflexivity].
  - rewrite dict_get_set. simpl.
    destruct (String.eqb_spec x n) as [->|Hne]; [now rewrite Hn | ].
    destruct (dict_get x (nodes G)); reflexivity.
Qed.

(** A relation row leaves every node it finds as it is and gives an
    endpoint it does not find the placeholder attributes. *)
Lemma get_nodes_add_relation (G : DiGraph) (src tgt : string) (a : attrs) (x : string) :
  dict_get x (nodes (add_relation_ok G (src, tgt, a)))
  = match dict_get x (nodes G) with
    | Some old => Some old
    | None => if (x =? src) || (x =? tgt) then Some placeholder_attrs else None
    end.
Proof.
  rewrite nodes_add_relation, !get_nodes_ensure_node.
  destruct (dict_get x (nodes G)); [reflexivity|].
  destruct (x =? src); reflexivity.
Qed.

Lemma get_nodes_relation_phase (evs : list (string * string * attrs)) (G : DiGraph)
    (x : string) :
  dict_get x (nodes (fold_left add_relation_ok evs G))
  = match dict_get x (nodes G) with
    | Some old => Some old
    | None =>
        if existsb (fun ev => (x =? fst (event_pair ev)) || (x =? snd (event_pair ev))) evs
        then Some placeholder_attrs else None
    end.
Proof.
  revert G. induction evs as [|[[src tgt] a] evs IH]; intros G; cbn [fold_left existsb].
  - destruct (dict_get x (nodes G)); reflexivity.
  - rewrite IH, get_nodes_add_relation. cbn [event_pair fst snd].
    destruct (dict_get x (nodes G)); [reflexivity|].
    destruct ((x =? src) || (x =? tgt)); reflexivity.
Qed.

Lemma NoDup_nodes_add_relation (G : DiGraph) (ev : string * string * attrs) :
  NoDup (keys (nodes G)) -> NoDup (keys (nodes (add_relation_ok G ev))).
Proof.
  destruct ev as [[src tgt] a]. intros Hnd.
  rewrite nodes_add_relation, nodes_ensure_node.
  assert (Hs : NoDup (keys (nodes (ensure_node G src)))).
  { rewrite nodes_ensure_node. destruct (dict_has src (nodes G));
      [assumption | now apply NoDup_dict_set]. }
  destruct (dict_has tgt (nodes (ensure_node G src)));
    [assumption | now apply NoDup_dict_set].
Qed.

Lemma NoDup_nodes_relation_phase (evs : list (string * string * attrs)) (G : DiGraph) :
  NoDup (keys (nodes G)) -> NoDup (keys (nodes (fold_left add_relation_ok evs G))).
Proof.
  revert G. induction evs as [|ev evs IH]; intros G Hnd; simpl; [assumption|].
  apply IH. now apply NoDup_nodes_add_relation.
Qed.

Lemma NoDup_edges_relation_phase (evs : list (string * string * attrs)) (G : DiGraph) :
  NoDup (keys (edges G)) -> NoDup (keys (edges (fold_left add_relation_ok evs G))).
Proof.
  revert G. induction evs as [|[[src tgt] a] evs IH]; intros G Hnd; cbn [fold_left];
    [assumption|].
  apply IH. rewrite edges_add_relation. now apply NoDup_dict_set.
Qed.

Lemma In_edges_relation_phase (evs : list (string * string * attrs)) (G : DiGraph)
    (e : string * string) :
  In e (keys (edges (fold_left add_relation_ok evs G)))
  <-> In e (keys (edges G)) \/ In e (map event_pair evs).
Proof.
  revert G. induction evs as [|[[src tgt] a] evs IH]; intros G; cbn [fold_left map];
    [simpl; tauto|].
  rewrite IH, edges_add_relation, In_keys_dict_set. unfold event_pair; simpl.
  split; intuition congruence.
Qed.

Lemma In_nodes_relation_phase (evs : list (string * string * attrs)) (G : DiGraph)
    (x : string) :
  In x (keys (nodes (fold_left add_relation_ok evs G)))
  <-> In x (keys (nodes G))
      \/ In x (flat_map (fun p => [fst p; snd p]) (map event_pair evs)).
Proof.
  rewrite <- !dict_has_In. unfold dict_has. rewrite get_nodes_relation_phase.
  destruct (dict_get x (nodes G)) eqn:Hx; [tauto|].
  destruct (existsb _ evs) eqn:He.
  - split; [intros _; right | reflexivity].
    apply existsb_exists in He. destruct He as (ev & Hin & Hor).
    apply in_flat_map. exists (event_pair ev). split; [now apply in_map|].
    apply orb_true_iff in Hor. destruct Hor as [E|E]; apply String.eqb_eq in E; subst;
      simpl; auto.
  - split; [discriminate|]. intros [Hf|Hin]; [discriminate|]. exfalso.
    apply in_flat_map in Hin. destruct Hin as (p & Hp & Hx').
    apply in_map_iff in Hp. destruct Hp as (ev & <- & Hev).
    assert (Ht : existsb (fun ev0 => (x =? fst (event_pair ev0)) || (x =? snd (event_pair ev0))) evs = true).
    { apply existsb_exists. exists ev. split; [assumption|].
      simpl in Hx'. destruct Hx' as [<-|[<-|[]]]; rewrite String.eqb_refl;
        [reflexivity | apply orb_true_r]. }
    congruence.
Qed.

(** ** Rows that raise *)

Lemma fold_result_map {A B C : Type} (f : A -> C -> result A) (g : B -> C)
    (l : list B) (a : A) :
  fold_result (fun acc x => f acc (g x)) l a = fold_result f (map g l) a.
Proof.
  revert a. induction l as [|x l IH]; intros a; simpl; [reflexivity|].
  destruct (f a (g x)); simpl; [apply IH | reflexivity].
Qed.

Lemma mem_keys (x : string) (d : dict string attrs) : mem x (keys d) = dict_has x d.
Proof.
  pose proof (mem_In x (keys d)) as Hm. pose proof (dict_has_In x d) as Hh.
  destruct (mem x (keys d)), (dict_has x d); try reflexivity; intuition congruence.
Qed.

(** Only the ids of the rows matter in what was seen before. *)
Lemma node_rows_bind_agree (seen seen' : list string)
    (evs : list (string * option cell * attrs)) :
  (forall ev, In ev evs -> In (event_id ev) seen <-> In (event_id ev) seen') ->
  node_rows_bind seen evs = node_rows_bind seen' evs.
Proof.
  revert seen seen'. induction evs as [|ev evs IH]; intros seen seen' Heq;
    cbn [node_rows_bind]; [reflexivity|].
  assert (Hm : mem (event_id ev) seen = mem (event_id ev) seen').
  { pose proof (mem_In (event_id ev) seen) as H1.
    pose proof (mem_In (event_id ev) seen') as H2.
    specialize (Heq ev (or_introl eq_refl)).
    destruct (mem (event_id ev) seen), (mem (event_id ev) seen'); try reflexivity;
      intuition congruence. }
  rewrite Hm. destruct (mem (event_id ev) seen'); [apply IH; intros; apply Heq; now right|].
  f_equal. apply IH. intros ev' Hev'. simpl.
  specialize (Heq ev' (or_intror Hev')). tauto.
Qed.

Lemma node_rows_bind_equiv (seen seen' : list string)
    (evs : list (string * option cell * attrs)) :
  (forall x, In x seen <-> In x seen') ->
  node_rows_bind seen evs = node_rows_bind seen' evs.
Proof. intros Heq. apply node_rows_bind_agree. intros ev _. apply Heq. Qed.

(** Rows whose ids are all in the graph cannot raise. *)
Lemma node_rows_bind_seen (seen : list string)
    (evs : list (string * option cell * attrs)) :
  (forall ev, In ev evs -> In (event_id ev) seen) -> node_rows_bind seen evs = true.
Proof.
  induction evs as [|ev evs IH]; intros Hall; cbn [node_rows_bind]; [reflexivity|].
  rewrite (proj2 (mem_In _ _) (Hall ev (or_introl eq_refl))).
  apply IH. intros ev' Hev'. apply Hall. now right.
Qed.

(** A node row raises exactly when it adds a node and its keywords do not
    bind. *)
Lemma merge_node_eq (G : DiGraph) (ev : string * option cell * attrs) :
  merge_node G ev
  = if has_node G (event_id ev)
       || negb (kwargs_clash add_node_params
                  (dict_update (type_attr (snd (fst ev))) (snd ev)))
    then Ok (merge_node_ok G ev) else Raise TypeError.
Proof.
  destruct ev as [[node_id node_type] props].
  unfold merge_node, merge_node_ok, add_node, event_id. cbn [fst snd].
  destruct (has_node G node_id); [reflexivity|]. cbn [orb].
  destruct (kwargs_clash add_node_params _); reflexivity.
Qed.

Lemma fold_merge_node (evs : list (string * option cell * attrs)) (G : DiGraph) :
  fold_result merge_node evs G
  = if node_rows_bind (keys (nodes G)) evs
    then Ok (fold_left merge_node_ok evs G) else Raise TypeError.
Proof.
  revert G. induction evs as [|ev evs IH]; intros G;
    cbn [fold_result fold_left node_rows_bind]; [reflexivity|].
  rewrite merge_node_eq, mem_keys. fold (has_node G (event_id ev)).
  assert (Hkeys : forall x, In x (keys (nodes (merge_node_ok G ev)))
                            <-> x = event_id ev \/ In x (keys (nodes G))).
  { intros x. destruct ev as [[node_id node_type] props].
    rewrite nodes_merge_node. apply In_keys_dict_set. }
  destruct (has_node G (event_id ev)) eqn:Hh; cbn [orb bind].
  - rewrite IH. rewrite (node_rows_bind_equiv (keys (nodes (merge_node_ok G ev)))
                           (keys (nodes G))); [reflexivity|].
    intros x. rewrite Hkeys. apply dict_has_In in Hh.
    split; [intros [->|Hx]; assumption | tauto].
  - destruct (kwargs_clash add_node_params _); cbn [negb andb bind]; [reflexivity|].
    rewrite IH. rewrite (node_rows_bind_equiv (keys (nodes (merge_node_ok G ev)))
                           (event_id ev :: keys (nodes G))); [reflexivity|].
    intros x. rewrite Hkeys. simpl. intuition congruence.
Qed.

(** A relation row raises exactly when its keywords do not bind. *)
Lemma add_relation_eq (G : DiGraph) (ev : string * string * attrs) :
  add_relation G ev
  = if kwargs_clash add_edge_params (snd ev) then Raise TypeError
    else Ok (add_relation_ok G ev).
Proof.
  destruct ev as [[src tgt] a]. unfold add_relation, add_relation_ok, add_edge.
  cbn [snd]. destruct (kwargs_clash add_edge_params a); reflexivity.
Qed.

Lemma fold_add_relation (evs : list (string * string * attrs)) (G : DiGraph) :
  fold_result add_relation evs G
  = if edge_rows_bind evs then Ok (fold_left add_relation_ok evs G)
    else Raise TypeError.
Proof.
  unfold edge_rows_bind. revert G.
  induction evs as [|ev evs IH]; intros G; cbn [fold_result fold_left forallb];
    [reflexivity|].
  rewrite add_relation_eq.
  destruct (kwargs_clash add_edge_params (snd ev)); cbn [negb andb bind];
    [reflexivity | apply IH].
Qed.

(** ** [build_graph] as a whole *)

Section Whole.
Variable json_loads : string -> result json.

Lemma add_nodes_from_df_eq (G : DiGraph) (df : option DataFrame) (source_label : string) :
  add_nodes_from_df json_loads G df source_label
  = if id_missing df then Raise (no_id_column source_label)
    else if node_rows_bind (keys (nodes G)) (node_events json_loads df)
         then Ok (fold_left merge_node_ok (node_events json_loads df) G)
         else Raise TypeError.
Proof.
  unfold add_nodes_from_df, id_missing, node_events.
  destruct df as [d|]; [|reflexivity].
  destruct (first_present (columns d) id_aliases); [|reflexivity].
  rewrite fold_result_map. apply fold_merge_node.
Qed.

Lemma add_relations_eq (G : DiGraph) (relations_df : option DataFrame) :
  add_relations json_loads G relations_df
  = if endpoints_missing relations_df then Raise no_source_target
    else if edge_rows_bind (edge_events json_loads relations_df)
         then Ok (fold_left add_relation_ok (edge_events json_loads relations_df) G)
         else Raise TypeError.
Proof.
  unfold add_relations, endpoints_missing, edge_events.
  destruct relations_df as [d|]; [|reflexivity].
  destruct (first_present (columns d) source_aliases); [|reflexivity].
  destruct (first_present (columns d) target_aliases); [|reflexivity].
  unfold add_relation_row. rewrite fold_result_map. apply fold_add_relation.
Qed.

(** The outcome of [build_graph]: the tables are taken in order and the
    first failure, a missing mandatory column or a row whose keywords do
    not bind, is the exception raised. *)
Lemma build_graph_eq (doc draw rel : option DataFrame) :
  build_graph json_loads doc draw rel
  = if id_missing doc then Raise (no_id_column "nodes_doc")
    else if negb (node_rows_bind [] (node_events json_loads doc)) then Raise TypeError
    else if id_missing draw then Raise (no_id_column "nodes_draw")
    else if negb (node_rows_bind
                    (keys (nodes (fold_left merge_node_ok (node_events json_loads doc)
                                    empty_graph)))
                    (node_events json_loads draw)) then Raise TypeError
    else if endpoints_missing rel then Raise no_source_target
    else if negb (edge_rows_bind (edge_events json_loads rel)) then Raise TypeError
    else Ok (assembled json_loads doc draw rel).
Proof.
  unfold build_graph, assembled. rewrite add_nodes_from_df_eq.
  destruct (id_missing doc); [reflexivity|]. simpl (keys (nodes empty_graph)).
  destruct (node_rows_bind [] (node_events json_loads doc)); [|reflexivity].
  cbn [bind negb]. rewrite add_nodes_from_df_eq.
  destruct (id_missing draw); [reflexivity|].
  destruct (node_rows_bind _ (node_events json_loads draw)); [|reflexivity].
  cbn [bind negb]. rewrite add_relations_eq.
  destruct (endpoints_missing rel); [reflexivity|].
  destruct (edge_rows_bind (edge_events json_loads rel)); [|reflexivity].
  cbn [negb]. now rewrite fold_left_app.
Qed.

Lemma build_graph_Ok (doc draw rel : option DataFrame) (G : DiGraph) :
  build_graph json_loads doc draw rel = Ok G -> G = assembled json_loads doc draw rel.
Proof.
  rewrite build_graph_eq.
  repeat match goal with
         | |- context [if ?b then _ else _] => destruct b; [discriminate|]
         end.
  repeat match goal with
         | |- (if ?b then _ else _) = _ -> _ => destruct b; try discriminate
         end.
  congruence.
Qed.

Lemma build_graph_Ok_inv (doc draw rel : option DataFrame) (G : DiGraph) :
  build_graph json_loads doc draw rel = Ok G ->
  id_missing doc = false
  /\ node_rows_bind [] (node_events json_loads doc) = true
  /\ id_missing draw = false
  /\ node_rows_bind
       (keys (nodes (fold_left merge_node_ok (node_events json_loads doc) empty_graph)))
       (node_events json_loads draw) = true
  /\ endpoints_missing rel = false
  /\ edge_rows_bind (edge_events json_loads rel) = true.
Proof.
  rewrite build_graph_eq.
  destruct (id_missing doc); [discriminate|].
  destruct (node_rows_bind [] _); [|discriminate].
  destruct (id_missing draw); [discriminate|].
  destruct (node_rows_bind _ (node_events json_loads draw)); [|discriminate].
  destruct (endpoints_missing rel); [discriminate|].
  destruct (edge_rows_bind _); [|discriminate].
  intros _. repeat split.
Qed.

Lemma build_graph_Ok_intro (doc draw rel : option DataFrame) :
  id_missing doc = false ->
  node_rows_bind [] (node_events json_loads doc) = true ->
  id_missing draw = false ->
  node_rows_bind
    (keys (nodes (fold_left merge_node_ok (node_events json_loads doc) empty_graph)))
    (node_events json_loads draw) = true ->
  endpoints_missing rel = false ->
  edge_rows_bind (edge_events json_loads rel) = true ->
  build_graph json_loads doc draw rel = Ok (assembled json_loads doc draw rel).
Proof.
  intros H1 H2 H3 H4 H5 H6. rewrite build_graph_eq, H1, H2, H3, H4, H5, H6.
  reflexivity.
Qed.

Lemma map_event_id_node_events (df : option DataFrame) :
  map event_id (node_events json_loads df) = declared_ids df.
Proof.
  unfold node_events, declared_ids. destruct df as [d|]; [|reflexivity].
  destruct (first_present (columns d) id_aliases); [|reflexivity].
  rewrite map_map. reflexivity.
Qed.

Lemma map_event_pair_edge_events (df : option DataFrame) :
  map event_pair (edge_events json_loads df) = relation_endpoints df.
Proof.
  unfold edge_events, relation_endpoints. destruct df as [d|]; [|reflexivity].
  destruct (first_present (columns d) source_aliases); [|reflexivity].
  destruct (first_present (columns d) target_aliases); [|reflexivity].
  rewrite map_map. reflexivity.
Qed.

Lemma NoDup_nodes_assembled (doc draw rel : option DataFrame) :
  NoDup (keys (nodes (assembled json_loads doc draw rel))).
Proof.
  unfold assembled. apply NoDup_nodes_relation_phase, NoDup_nodes_node_phase.
  constructor.
Qed.

Lemma NoDup_edges_assembled (doc draw rel : option DataFrame) :
  NoDup (keys (edges (assembled json_loads doc draw rel))).
Proof.
  unfold assembled. apply NoDup_edges_relation_phase.
  rewrite edges_node_phase. constructor.
Qed.

Lemma In_nodes_assembled (doc draw rel : option DataFrame) (n : string) :
  In n (keys (nodes (assembled json_loads doc draw rel)))
  <-> In n (declared_ids doc ++ declared_ids draw ++ endpoint_ids rel).
Proof.
  unfold assembled, endpoint_ids.
  rewrite In_nodes_relation_phase, In_nodes_node_phase, map_app, !in_app_iff.
  rewrite !map_event_id_node_events, map_event_pair_edge_events. simpl. tauto.
Qed.

Lemma In_edges_assembled (doc draw rel : option DataFrame) (e : string * string) :
  In e (keys (edges (assembled json_loads doc draw rel)))
  <-> In e (relation_endpoints rel).
Proof.
  unfold assembled.
  rewrite In_edges_relation_phase, edges_node_phase, map_event_pair_edge_events.
  simpl. tauto.
Qed.

(** A dictionary with distinct keys has as many entries as there are
    distinct elements in any list with the same members. *)
Lemma length_dict_nodup {K V : Type} (dec : forall x y : K, {x = y} + {x <> y})
    (d : list (K * V)) (l : list K) :
  NoDup (map fst d) -> (forall k, In k (map fst d) <-> In k l) ->
  List.length d = List.length (nodup dec l).
Proof.
  intros Hnd Hiff. rewrite <- (length_map fst d).
  apply Permutation_length, NoDup_Permutation;
    [assumption | apply NoDup_nodup |].
  intros k. rewrite nodup_In. apply Hiff.
Qed.

(** C1: after assembly every entity id occurs once among the nodes of the
    graph.  A node row whose id is already present rewrites the attribute
    dictionary found there (type by [setdefault], properties by [update])
    and leaves the list of ids as it was; a relation endpoint whose id is
    already present leaves the graph as it was.  Neither adds a node. *)
Theorem C1_entity_ids_unique (doc draw rel : option DataFrame) (G : DiGraph) :
  build_graph json_loads doc draw rel = Ok G ->
  NoDup (keys (nodes G))
  /\ (forall G0 node_id node_type props old,
        dict_get node_id (nodes G0) = Some old ->
        exists G1,
          merge_node G0 (node_id, node_type, props) = Ok G1
          /\ keys (nodes G1) = keys (nodes G0)
          /\ dict_get node_id (nodes G1)
             = Some (dict_update
                       (match node_type with
                        | Some t =>
                            if truthy t then dict_setdefault "node_type" (of_cell t) old
                            else old
                        | None => old
                        end) props))
  /\ (forall G0 n, has_node G0 n = true -> ensure_node G0 n = G0).
Proof.
  intros HG. apply build_graph_Ok in HG. subst G.
  split; [apply NoDup_nodes_assembled|]. split.
  - intros G0 node_id node_type props old Hold.
    exists (merge_node_ok G0 (node_id, node_type, props)). split.
    + rewrite merge_node_eq. unfold event_id, has_node, dict_has. cbn [fst].
      now rewrite Hold.
    + rewrite nodes_merge_node, Hold. split.
      * rewrite keys_dict_set. unfold dict_has. now rewrite Hold.
      * now rewrite dict_get_set_same.
  - intros G0 n Hn. unfold ensure_node. now rewrite Hn.
Qed.
End Whole.

Lemma C1_entity_ids_unique_witness :
  exists G,
    build_graph json_loads_subset (Some table_a) (Some table_b) (Some table_rel) = Ok G
    /\ NoDup (keys (nodes G)).
Proof.
  eexists. split; [vm_compute; reflexivity|].
  apply (C1_entity_ids_unique json_loads_subset (Some table_a) (Some table_b)
           (Some table_rel)).
  vm_compute; reflexivity.
Defined.

(** ** Edges *)

Section EdgeClaims.
Variable json_loads : string -> result json.

(** C2, as the code has it: the graph is directed and holds at most one
    edge for an ordered pair (source, target).  The edges are exactly the
    ordered endpoint pairs of the relation rows, one edge for each distinct
    pair; a row whose ordered pair already has an edge updates the data of
    that edge, the new relation type replacing the old one, and adds no
    edge.  (A row with a property column named after a parameter of
    [add_edge] raises a TypeError instead: the keyword call of line 180
    cannot bind it.) *)
Theorem C2_one_edge_per_ordered_pair (doc draw rel : option DataFrame) (G : DiGraph) :
  build_graph json_loads doc draw rel = Ok G ->
  NoDup (keys (edges G))
  /\ (forall e, In e (keys (edges G)) <-> In e (relation_endpoints rel))
  /\ List.length (edges G) = List.length (nodup pair_dec (relation_endpoints rel))
  /\ (forall G0 src tgt a old,
        dict_get (src, tgt) (edges G0) = Some old ->
        (kwargs_clash add_edge_params a = true ->
         add_relation G0 (src, tgt, a) = Raise TypeError)
        /\ (kwargs_clash add_edge_params a = false ->
            exists G1,
              add_relation G0 (src, tgt, a) = Ok G1
              /\ keys (edges G1) = keys (edges G0)
              /\ dict_get (src, tgt) (edges G1) = Some (dict_update old a))).
Proof.
  intros HG. apply build_graph_Ok in HG. subst G.
  split; [apply NoDup_edges_assembled|].
  split; [apply In_edges_assembled|].
  split.
  - apply length_dict_nodup; [apply NoDup_edges_assembled | apply In_edges_assembled].
  - intros G0 src tgt a old Hold. split; intros Hbind.
    + rewrite add_relation_eq. cbn [snd]. now rewrite Hbind.
    + exists (add_relation_ok G0 (src, tgt, a)). split.
      * rewrite add_relation_eq. cbn [snd]. now rewrite Hbind.
      * rewrite edges_add_relation, Hold. split.
        -- rewrite keys_dict_set. unfold dict_has. now rewrite Hold.
        -- apply dict_get_set_same.
Qed.

End EdgeClaims.

Lemma C2_one_edge_per_ordered_pair_witness :
  exists G,
    build_graph json_loads_subset (Some table_a) (Some table_b) (Some table_rel) = Ok G
    /\ NoDup (keys (edges G))
    /\ keys (edges G) = [("n1", "n2"); ("n1", "n3")].
Proof.
  eexists. split; [vm_compute; reflexivity|]. split; [|reflexivity].
  apply (@C2_one_edge_per_ordered_pair json_loads_subset (Some table_a) (Some table_b)
           (Some table_rel)).
  vm_compute; reflexivity.
Defined.

(** Two rows from n1 to n2 with different relation types leave one edge,
    which carries the type of the second row. *)
Lemma C2_counterexample :
  exists G,
    build_graph json_loads_subset None None (Some table_rel_twice) = Ok G
    /\ List.length (rows table_rel_twice) = 2
    /\ edges G = [(("n1", "n2"), [("relationship", VStr "refs")])].
Proof. eexists. split; [vm_compute; reflexivity|]. split; reflexivity. Qed.

(** ** The property extractor *)

Section Extractor.
Variable json_loads : string -> result json.

Lemma In_parse_properties (row : Series) (drop_cols : list (option string))
    (k : string) (v : value) :
  In (k, v) (parse_properties_from_row json_loads row drop_cols)
  <-> exists c, In (k, c) row /\ in_drop drop_cols k = false /\ dropped c = false
                /\ v = decode_value json_loads (of_cell c).
Proof.
  unfold parse_properties_from_row. rewrite map_map. simpl. rewrite in_map_iff. split.
  - intros ([k0 c] & Heq & Hin). simpl in Heq. inversion Heq; subst.
    apply filter_In in Hin. destruct Hin as (Hin & Hd).
    apply filter_In in Hin. destruct Hin as (Hin & Hdrop). simpl in Hd, Hdrop.
    exists c. apply negb_true_iff in Hd, Hdrop. auto.
  - intros (c & Hin & Hdrop & Hd & ->). exists (k, c). split; [reflexivity|].
    apply filter_In. simpl. split; [|now rewrite Hd].
    apply filter_In. simpl. split; [assumption | now rewrite Hdrop].
Qed.

Lemma keys_parse_properties (row : Series) (drop_cols : list (option string))
    (k : string) :
  In k (keys (parse_properties_from_row json_loads row drop_cols)) ->
  In k (index row) /\ in_drop drop_cols k = false.
Proof.
  unfold keys. rewrite in_map_iff. intros ([k0 v] & <- & Hin). simpl.
  apply In_parse_properties in Hin. destruct Hin as (c & Hin & Hdrop & _).
  split; [|assumption]. unfold index. change k0 with (fst (k0, c)). now apply in_map.
Qed.

Lemma decode_value_plain (s : string) :
  bracketed (strip s) = false -> decode_value json_loads (VStr s) = VStr s.
Proof. intros Hb. unfold decode_value. now rewrite Hb. Qed.

Lemma decode_value_not_str (c : cell) :
  (forall s, c <> CStr s) -> decode_value json_loads (of_cell c) = of_cell c.
Proof. destruct c; simpl; intros Hn; [now destruct (Hn s) | reflexivity | reflexivity]. Qed.

(** C6, as the code has it: a column whose cell is the empty string or
    missing gives no key to the extracted properties, for node rows and
    edge rows alike; a cell of white space only is not empty and is kept,
    under its column, as the string it is. *)
Theorem C6_empty_cells_dropped (row : Series) (drop_cols : list (option string))
    (k : string) :
  ((forall c, In (k, c) row -> c = CStr "" \/ c = CNaN) ->
   dict_get k (parse_properties_from_row json_loads row drop_cols) = None)
  /\ (forall s, In (k, CStr s) row -> in_drop drop_cols k = false ->
                s <> "" -> strip s = "" ->
                In (k, VStr s) (parse_properties_from_row json_loads row drop_cols)).
Proof.
  split.
  - intros Hall. apply dict_get_None. intros Hin.
    unfold keys in Hin. apply in_map_iff in Hin. destruct Hin as ([k0 v] & Hk & Hin).
    simpl in Hk. subst k0. apply In_parse_properties in Hin.
    destruct Hin as (c & Hin & _ & Hd & _).
    destruct (Hall c Hin) as [->| ->]; discriminate.
  - intros s Hin Hdrop Hne Hstrip. apply In_parse_properties.
    exists (CStr s). split; [assumption|]. split; [assumption|]. split.
    + simpl. now apply String.eqb_neq.
    + simpl of_cell. rewrite decode_value_plain; [reflexivity | now rewrite Hstrip].
Qed.

(** C7: a property value that survives the filter is decoded only when it
    is a string whose stripped text starts and ends with matching braces or
    brackets.  When [json.loads] returns, its result replaces the string;
    when it raises, the original string stays as it was; a string that is
    not so delimited, and a value that is not a string, stay without the
    decoder being called.  The extractor returns a dictionary in every
    case, whatever the decoder raises.  With a decoder that reads
    "[1, 2, 3]" as the list 1, 2, 3, a cell "[1, 2, 3]" becomes that list
    and the malformed "[1, 2," stays the string. *)
Theorem C7_structured_decoding (row : Series) (drop_cols : list (option string)) :
  (forall k v,
     In (k, v) (parse_properties_from_row json_loads row drop_cols)
     <-> exists c, In (k, c) row /\ in_drop drop_cols k = false /\ dropped c = false
                   /\ v = decode_value json_loads (of_cell c))
  /\ (forall s j, bracketed (strip s) = true -> json_loads (strip s) = Ok j ->
                  decode_value json_loads (VStr s) = VJson j)
  /\ (forall s e, bracketed (strip s) = true -> json_loads (strip s) = Raise e ->
                  decode_value json_loads (VStr s) = VStr s)
  /\ (forall s, bracketed (strip s) = false ->
                decode_value json_loads (VStr s) = VStr s)
  /\ (forall c, (forall s, c <> CStr s) ->
                decode_value json_loads (of_cell c) = of_cell c)
  /\ (json_loads "[1, 2, 3]" = Ok (JArr [JInt 1; JInt 2; JInt 3]) ->
      parse_properties_from_row json_loads
        [("id", CStr "n1"); ("dims", CStr "[1, 2, 3]"); ("bad", CStr "[1, 2,")]
        [Some "id"; None]
      = [("dims", VJson (JArr [JInt 1; JInt 2; JInt 3])); ("bad", VStr "[1, 2,")]).
Proof.
  split; [intros k v; apply In_parse_properties|].
  split; [intros s j Hb Hj; unfold decode_value; now rewrite Hb, Hj|].
  split; [intros s e Hb Hj; unfold decode_value; now rewrite Hb, Hj|].
  split; [apply decode_value_plain|].
  split; [apply decode_value_not_str|].
  intros Hj. unfold parse_properties_from_row. simpl.
  change (strip "[1, 2, 3]") with "[1, 2, 3]".
  change (bracketed "[1, 2, 3]") with true. cbv iota. rewrite Hj.
  reflexivity.
Qed.
End Extractor.

Lemma C6_empty_cells_dropped_witness :
  dict_get "note"
    (parse_properties_from_row json_loads_subset
       [("id", CStr "n1"); ("note", CStr ""); ("rev", CNaN); ("name", CStr "Bolt")]
       [Some "id"; None]) = None.
Proof.
  apply (@C6_empty_cells_dropped json_loads_subset).
  intros c [E|[E|[E|[E|[]]]]]; inversion E; auto.
Defined.

(** A cell of two spaces is kept as a property. *)
Lemma C6_counterexample :
  parse_properties_from_row json_loads_subset
    [("id", CStr "n1"); ("note", CStr "  "); ("name", CStr "Bolt")] [Some "id"; None]
  = [("note", VStr "  "); ("name", VStr "Bolt")].
Proof. reflexivity. Qed.

Lemma C7_structured_decoding_witness :
  parse_properties_from_row json_loads_subset
    [("id", CStr "n1"); ("dims", CStr "[1, 2, 3]"); ("bad", CStr "[1, 2,")]
    [Some "id"; None]
  = [("dims", VJson (JArr [JInt 1; JInt 2; JInt 3])); ("bad", VStr "[1, 2,")].
Proof.
  apply (@C7_structured_decoding json_loads_subset [] []).
  vm_compute; reflexivity.
Defined.

(** ** Placeholders and relation types *)

Section RelationClaims.
Variable json_loads : string -> result json.

Lemma relationship_edge_attrs (s_col t_col : string) (rel_col : option string)
    (row : Series) :
  ~ In "relationship" (keys (parse_properties_from_row json_loads row
                               [Some s_col; Some t_col; rel_col])) ->
  dict_get "relationship" (edge_attrs json_loads s_col t_col rel_col row)
  = Some (rel_type_of rel_col row).
Proof.
  intros Hout. unfold edge_attrs.
  rewrite dict_get_update_other; [reflexivity | now apply dict_get_None].
Qed.

Lemma NoDup_edge_attrs (s_col t_col : string) (rel_col : option string) (row : Series) :
  NoDup (keys (edge_attrs json_loads s_col t_col rel_col row)).
Proof.
  unfold edge_attrs. apply NoDup_dict_update. simpl.
  constructor; [simpl; tauto | constructor].
Qed.

(** When every row records the same relation type, so does every edge. *)
Lemma relationship_relation_phase (r : value) (evs : list (string * string * attrs))
    (G : DiGraph) :
  (forall ev, In ev evs ->
     NoDup (keys (snd ev)) /\ dict_get "relationship" (snd ev) = Some r) ->
  (forall e a, dict_get e (edges G) = Some a -> dict_get "relationship" a = Some r) ->
  forall e a, dict_get e (edges (fold_left add_relation_ok evs G)) = Some a ->
              dict_get "relationship" a = Some r.
Proof.
  revert G. induction evs as [|[[src tgt] a0] evs IH]; intros G Hevs HG;
    cbn [fold_left]; [assumption|].
  apply IH; [intros ev Hev; apply Hevs; now right|].
  intros e a. rewrite edges_add_relation, dict_get_set.
  destruct (keqb e (src, tgt)); [|apply HG].
  intros [= <-]. destruct (Hevs (src, tgt, a0)) as (Hnd & Hr); [now left|].
  now apply dict_get_update_in.
Qed.

(** C5, as the code has it: the relation type of an edge is the sentinel
    "RELATED_TO" when the relation table has no column from the alias list,
    and then every edge of the graph has it.  When such a column is found,
    every row records the raw cell of that column, an empty or missing cell
    included, and the edge of the row carries that cell as its relation
    type; the sentinel is not used.  (A second column named relationship,
    next to the one found, would overwrite the type as a property; a row
    with a property column named after a parameter of [add_edge] raises a
    TypeError at line 180 and makes no edge.) *)
Theorem C5_relation_type_default (doc draw rel : option DataFrame) (G : DiGraph) :
  build_graph json_loads doc draw rel = Ok G ->
  (forall d, rel = Some d -> first_present (columns d) relation_aliases = None ->
     forall e a, dict_get e (edges G) = Some a ->
                 dict_get "relationship" a = Some (VStr "RELATED_TO"))
  /\ (forall G0 s_col t_col c row,
        In c (index row) ->
        c = "relationship" \/ ~ In "relationship" (index row) ->
        (kwargs_clash add_edge_params (edge_attrs json_loads s_col t_col (Some c) row)
         = true ->
         add_relation_row json_loads s_col t_col (Some c) G0 row = Raise TypeError)
        /\ (kwargs_clash add_edge_params (edge_attrs json_loads s_col t_col (Some c) row)
            = false ->
            exists G1 a,
              add_relation_row json_loads s_col t_col (Some c) G0 row = Ok G1
              /\ dict_get (py_str (row_get row s_col), py_str (row_get row t_col))
                   (edges G1) = Some a
              /\ dict_get "relationship" a = Some (of_cell (row_get row c)))).
Proof.
  intros HG. apply build_graph_Ok in HG. subst G. split.
  - intros d -> Hnone. unfold assembled.
    apply relationship_relation_phase; [|rewrite edges_node_phase; discriminate].
    intros ev Hev. unfold edge_events in Hev.
    destruct (first_present (columns d) source_aliases) as [s_col|]; [|destruct Hev].
    destruct (first_present (columns d) target_aliases) as [t_col|]; [|destruct Hev].
    rewrite Hnone in Hev. apply in_map_iff in Hev. destruct Hev as (row & <- & Hrow).
    unfold relation_fields. cbn [snd]. split; [apply NoDup_edge_attrs|].
    rewrite relationship_edge_attrs; [reflexivity|].
    intros Hk. apply keys_parse_properties in Hk. destruct Hk as (Hk & _).
    rewrite (index_iterrows _ _ Hrow) in Hk.
    apply (proj1 (first_present_None _ _) Hnone "relationship"); [|assumption].
    simpl. tauto.
  - intros G0 s_col t_col c row Hc Hcol.
    unfold add_relation_row, relation_fields. rewrite add_relation_eq. cbn [snd].
    split; intros Hbind; rewrite Hbind; [reflexivity|].
    eexists. eexists. split; [reflexivity|].
    rewrite edges_add_relation.
    split; [apply dict_get_set_same|].
    rewrite dict_get_update_in
      with (v := of_cell (row_get row c)); [reflexivity | apply NoDup_edge_attrs |].
    rewrite relationship_edge_attrs.
    + unfold rel_type_of. now rewrite (proj2 (mem_In _ _) Hc).
    + intros Hk. apply keys_parse_properties in Hk. destruct Hk as (Hk & Hdrop).
      destruct Hcol as [->|Hout]; [|contradiction].
      unfold in_drop in Hdrop. cbn [existsb] in Hdrop.
      apply orb_false_iff in Hdrop. destruct Hdrop as (_ & Hdrop).
      apply orb_false_iff in Hdrop. destruct Hdrop as (_ & Hdrop).
      apply orb_false_iff in Hdrop. destruct Hdrop as (Hdrop & _).
      rewrite String.eqb_refl in Hdrop. discriminate.
Qed.
End RelationClaims.

Lemma C5_relation_type_default_witness :
  exists G,
    build_graph json_loads_subset None None (Some table_rel_plain) = Ok G
    /\ forall e a, dict_get e (edges G) = Some a ->
                   dict_get "relationship" a = Some (VStr "RELATED_TO").
Proof.
  eexists. split; [vm_compute; reflexivity|].
  apply (proj1 (@C5_relation_type_default json_loads_subset None None
                  (Some table_rel_plain) _ eq_refl) table_rel_plain eq_refl eq_refl).
Defined.

(** With the column relationship_type present, an empty cell and a missing
    one are stored as they are. *)
Lemma C5_counterexample :
  exists G,
    build_graph json_loads_subset None None (Some table_rel_blank) = Ok G
    /\ edges G = [(("n1", "n2"), [("relationship", VStr "")]);
                  (("n1", "n3"), [("relationship", VNaN)])].
Proof. eexists. split; [vm_compute; reflexivity|]. reflexivity. Qed.

(** C4: the code leaves, for an id whose first row has a blank type field,
    the missing marker [nan] as the type: [nan] passes the test
    [if node_type] of line 138, and [setdefault] then keeps it when the
    second row brings the type "Part".  The properties do accumulate, the
    second row winning on name. *)
Theorem C4_blank_type_wins :
  exists G,
    build_graph json_loads_subset (Some table_blank_type) None None = Ok G
    /\ dict_get "X" (nodes G) = Some [("node_type", VNaN); ("name", VStr "second")].
Proof. eexists. split; [vm_compute; reflexivity|]. reflexivity. Qed.

(** ** First type, last property *)

Lemma get_nodes_node_phase (x : string) (evs : list (string * option cell * attrs))
    (G : DiGraph) :
  dict_get x (nodes (fold_left merge_node_ok evs G))
  = fold_left (track x) evs (dict_get x (nodes G)).
Proof.
  revert G. induction evs as [|[[node_id node_type] props] evs IH]; intros G;
    cbn [fold_left]; [reflexivity|].
  rewrite IH, nodes_merge_node, dict_get_set. f_equal.
  unfold track, event_id. cbn [fst snd]. simpl keqb.
  rewrite (String.eqb_sym x node_id).
  destruct (String.eqb_spec node_id x) as [->|Hne]; reflexivity.
Qed.

Lemma merged_attrs_type (cur : option attrs) (node_type : option cell) (props : attrs) :
  dict_get "node_type" props = None ->
  dict_get "node_type" (merged_attrs cur node_type props)
  = match attr_of cur "node_type" with
    | Some v => Some v
    | None =>
        match node_type with
        | Some t => if truthy t then Some (of_cell t) else None
        | None => None
        end
    end.
Proof.
  intros Hp. unfold merged_attrs, attr_of. destruct cur as [a|].
  - rewrite dict_get_update_other by assumption.
    destruct node_type as [t|]; [destruct (truthy t)|];
      try (destruct (dict_get "node_type" a); reflexivity).
    unfold dict_setdefault, dict_has.
    destruct (dict_get "node_type" a) eqn:Ha; [assumption | apply dict_get_set_same].
  - rewrite dict_update_nil_l.
    + rewrite dict_get_update_other by assumption.
      destruct node_type as [t|]; [destruct (truthy t)|]; reflexivity.
    + apply NoDup_dict_update.
      destruct node_type as [t|]; [destruct (truthy t)|]; simpl;
        repeat constructor; simpl; tauto.
Qed.

Lemma merged_attrs_prop (cur : option attrs) (node_type : option cell) (props : attrs)
    (k : string) :
  k <> "node_type" -> NoDup (keys props) ->
  dict_get k (merged_attrs cur node_type props)
  = match dict_get k props with
    | Some v => Some v
    | None => attr_of cur k
    end.
Proof.
  intros Hk Hnd.
  assert (Hupd : forall d : attrs,
             dict_get k (dict_update d props)
             = match dict_get k props with Some v => Some v | None => dict_get k d end).
  { intros d. destruct (dict_get k props) eqn:Hp;
      [now apply dict_get_update_in | now apply dict_get_update_other]. }
  unfold merged_attrs, attr_of. destruct cur as [a|].
  - rewrite Hupd. destruct (dict_get k props); [reflexivity|].
    destruct node_type as [t|]; [destruct (truthy t)|]; try reflexivity.
    unfold dict_setdefault. destruct (dict_has "node_type" a); [reflexivity|].
    now apply dict_get_set_other.
  - rewrite dict_update_nil_l.
    + rewrite Hupd. destruct (dict_get k props); [reflexivity|].
      destruct node_type as [t|]; [destruct (truthy t)|]; try reflexivity.
      simpl. now rewrite (proj2 (String.eqb_neq k "node_type") Hk).
    + apply NoDup_dict_update.
      destruct node_type as [t|]; [destruct (truthy t)|]; simpl;
        repeat constructor; simpl; tauto.
Qed.

(** Over the rows of one id the type is settled by the first row whose type
    passes [if node_type], and every other attribute by the last row that
    has it, as long as no property of these rows is itself named
    node_type. *)
Lemma track_first_type_last_prop (x : string)
    (evs : list (string * option cell * attrs)) (cur : option attrs) :
  (forall ev, In ev evs -> event_id ev = x ->
     NoDup (keys (snd ev)) /\ dict_get "node_type" (snd ev) = None) ->
  attr_of (fold_left (track x) evs cur) "node_type"
  = match attr_of cur "node_type" with
    | Some v => Some v
    | None => option_map of_cell (first_type x evs)
    end
  /\ forall k, k <> "node_type" ->
       attr_of (fold_left (track x) evs cur) k
       = match last_prop x k evs with
         | Some v => Some v
         | None => attr_of cur k
         end.
Proof.
  revert cur. induction evs as [|[[node_id node_type] props] evs IH]; intros cur Hevs.
  - simpl. split; [destruct (attr_of cur "node_type"); reflexivity | reflexivity].
  - cbn [fold_left].
    destruct (IH (track x cur (node_id, node_type, props))) as (IHt & IHp);
      [intros ev Hev; apply Hevs; now right|].
    unfold track in IHt, IHp |- *. unfold event_id in *. cbn [fst snd] in *.
    cbn [first_type last_prop].
    destruct (String.eqb_spec node_id x) as [->|Hne].
    + destruct (Hevs (x, node_type, props)) as (Hnd & Hnt); [now left | reflexivity|].
      cbn [snd] in Hnd, Hnt. split.
      * rewrite IHt. cbn [attr_of]. rewrite merged_attrs_type by assumption.
        destruct (attr_of cur "node_type"); [reflexivity|].
        destruct node_type as [t|]; [destruct (truthy t)|]; reflexivity.
      * intros k Hk. rewrite (IHp k Hk). cbn [attr_of].
        rewrite merged_attrs_prop by assumption.
        destruct (last_prop x k evs); reflexivity.
    + split; [exact IHt|]. intros k Hk. rewrite (IHp k Hk).
      destruct (last_prop x k evs); reflexivity.
Qed.

Section NodeRows.
Variable json_loads : string -> result json.

(** The same on the graph [build_graph] returns: the relation rows leave a
    declared entity as the node rows made it. *)
Lemma first_type_last_prop (doc draw rel : option DataFrame) (G : DiGraph) (x : string) :
  build_graph json_loads doc draw rel = Ok G ->
  (forall ev, In ev (node_events json_loads doc ++ node_events json_loads draw) ->
     event_id ev = x -> NoDup (keys (snd ev)) /\ dict_get "node_type" (snd ev) = None) ->
  In x (declared_ids doc ++ declared_ids draw) ->
  exists a,
    dict_get x (nodes G) = Some a
    /\ dict_get "node_type" a
       = option_map of_cell
           (first_type x (node_events json_loads doc ++ node_events json_loads draw))
    /\ forall k, k <> "node_type" ->
         dict_get k a
         = last_prop x k (node_events json_loads doc ++ node_events json_loads draw).
Proof.
  intros HG Hevs Hin. apply build_graph_Ok in HG. subst G. unfold assembled.
  set (evs := node_events json_loads doc ++ node_events json_loads draw) in *.
  destruct (@track_first_type_last_prop x evs None Hevs) as (Ht & Hp).
  assert (Hkey : In x (keys (nodes (fold_left merge_node_ok evs empty_graph)))).
  { apply In_nodes_node_phase. right. unfold evs.
    now rewrite map_app, !map_event_id_node_events. }
  apply dict_has_In in Hkey. unfold dict_has in Hkey.
  rewrite get_nodes_relation_phase.
  rewrite get_nodes_node_phase in Hkey |- *. simpl dict_get in Hkey |- *.
  destruct (fold_left (track x) evs None) as [a|]; [|discriminate].
  exists a. split; [reflexivity|]. split; [exact Ht|].
  intros k Hk. specialize (Hp k Hk). cbn [attr_of] in Hp. rewrite Hp.
  now destruct (last_prop x k evs).
Qed.
End NodeRows.

(** * Further properties of the assembly *)

(** ** More on dictionaries *)

Section DictMore.
Context {K V : Type} `{EqKey K}.
Implicit Types (k : K) (v : V) (d e : dict K V).

Lemma existsb_keqb_In k (l : list K) : existsb (keqb k) l = true <-> In k l.
Proof.
  rewrite existsb_exists. split.
  - intros (x & Hin & Heq). destruct (keqb_spec k x); [now subst | discriminate].
  - intros Hin. exists k. split; [assumption | apply keqb_refl].
Qed.

(** Two dictionaries with the same keys in the same order and the same
    value at every key are the same dictionary. *)
Lemma dict_ext d e :
  NoDup (keys d) -> keys d = keys e ->
  (forall k, dict_get k d = dict_get k e) -> d = e.
Proof.
  revert e. induction d as [|[k0 v0] d IH]; intros [|[k1 v1] e] Hnd Hk Hg;
    simpl in Hk; try discriminate; [reflexivity|].
  injection Hk as -> Hk. inversion Hnd as [|? ? Hout Hnd']; subst.
  pose proof (Hg k1) as Hg1. simpl in Hg1. rewrite keqb_refl in Hg1.
  injection Hg1 as ->. f_equal. apply IH; [assumption | assumption |].
  intros k. specialize (Hg k). simpl in Hg.
  destruct (keqb_spec k k1) as [Heq|Hne]; [subst k | assumption].
  rewrite (proj2 (dict_get_None k1 d) Hout).
  symmetry. apply dict_get_None. unfold keys in Hk |- *. now rewrite <- Hk.
Qed.

Lemma keys_dict_update_present d e :
  (forall k, In k (keys e) -> In k (keys d)) -> keys (dict_update d e) = keys d.
Proof.
  unfold dict_update. revert d.
  induction e as [|[k0 v0] e IH]; intros d Hin; simpl; [reflexivity|].
  assert (Hk : keys (dict_set k0 v0 d) = keys d).
  { rewrite keys_dict_set.
    rewrite (proj2 (dict_has_In k0 d)); [reflexivity | apply Hin; simpl; auto]. }
  rewrite IH; [assumption|]. intros k Hk'. rewrite Hk. apply Hin. simpl. auto.
Qed.

Lemma first_seen_equiv (s s' l : list K) :
  (forall x, In x s <-> In x s') -> first_seen s l = first_seen s' l.
Proof.
  revert s s'. induction l as [|x l IH]; intros s s' Heq; simpl; [reflexivity|].
  assert (Hm : existsb (keqb x) s = existsb (keqb x) s').
  { pose proof (existsb_keqb_In x s) as H1. pose proof (existsb_keqb_In x s') as H2.
    specialize (Heq x).
    destruct (existsb (keqb x) s), (existsb (keqb x) s'); try reflexivity;
      intuition congruence. }
  rewrite Hm. destruct (existsb (keqb x) s'); [now apply IH|].
  f_equal. apply IH. intros y. simpl. rewrite Heq. tauto.
Qed.

Lemma In_first_seen (s l : list K) (x : K) :
  In x (first_seen s l) <-> In x l /\ ~ In x s.
Proof.
  revert s. induction l as [|y l IH]; intros s; simpl; [tauto|].
  destruct (existsb (keqb y) s) eqn:Hy.
  - apply existsb_keqb_In in Hy. rewrite IH. split; [tauto|].
    intros [[->|Hin] Hout]; [contradiction | tauto].
  - assert (Hy' : ~ In y s).
    { intros Hin. apply existsb_keqb_In in Hin. congruence. }
    simpl. rewrite IH. simpl. split.
    + intros [->|(Hin & Hout)]; [tauto|]. split; [tauto|]. intros Hs. apply Hout. now right.
    + intros ([->|Hin] & Hout); [now left|].
      destruct (keqb_spec y x) as [->|Hne]; [now left|].
      right. split; [assumption|]. intros [E|Hs]; [congruence | contradiction].
Qed.

Lemma first_seen_app (s l1 l2 : list K) :
  first_seen s (l1 ++ l2) = first_seen s l1 ++ first_seen (s ++ first_seen s l1) l2.
Proof.
  revert s. induction l1 as [|x l1 IH]; intros s; simpl.
  - now rewrite app_nil_r.
  - destruct (existsb (keqb x) s); [apply IH|].
    simpl. f_equal. rewrite IH. f_equal. apply first_seen_equiv.
    intros y. simpl. rewrite ?in_app_iff. simpl. tauto.
Qed.

(** Writing a key adds it at the end when it is new. *)
Lemma keys_dict_set_first_seen k v d :
  keys (dict_set k v d) = keys d ++ first_seen (keys d) [k].
Proof.
  rewrite keys_dict_set. simpl.
  pose proof (existsb_keqb_In k (keys d)) as Hx.
  pose proof (dict_has_In k d) as Hh.
  destruct (dict_has k d), (existsb (keqb k) (keys d)); try reflexivity;
    try (now rewrite app_nil_r); exfalso; intuition congruence.
Qed.
End DictMore.

(** ** Order of insertion *)

Lemma keys_fold_first_seen {S E K : Type} `{EqKey K} (kf : S -> list K)
    (step : S -> E -> S) (g : E -> list K) :
  (forall s ev, kf (step s ev) = kf s ++ first_seen (kf s) (g ev)) ->
  forall evs s, kf (fold_left step evs s) = kf s ++ first_seen (kf s) (flat_map g evs).
Proof.
  intros Hstep evs. induction evs as [|ev evs IH]; intros s; cbn [fold_left flat_map].
  - simpl. now rewrite app_nil_r.
  - rewrite IH, Hstep, first_seen_app, app_assoc. reflexivity.
Qed.

Lemma keys_nodes_merge_node (G : DiGraph) (ev : string * option cell * attrs) :
  keys (nodes (merge_node_ok G ev))
  = keys (nodes G) ++ first_seen (keys (nodes G)) [event_id ev].
Proof.
  destruct ev as [[node_id node_type] props].
  rewrite nodes_merge_node. apply keys_dict_set_first_seen.
Qed.

Lemma keys_nodes_ensure_node (G : DiGraph) (n : string) :
  keys (nodes (ensure_node G n)) = keys (nodes G) ++ first_seen (keys (nodes G)) [n].
Proof.
  rewrite nodes_ensure_node. destruct (dict_has n (nodes G)) eqn:Hh.
  - apply dict_has_In in Hh. cbn [first_seen].
    rewrite (proj2 (existsb_keqb_In n (keys (nodes G))) Hh). now rewrite app_nil_r.
  - apply keys_dict_set_first_seen.
Qed.

Lemma keys_nodes_add_relation (G : DiGraph) (ev : string * string * attrs) :
  keys (nodes (add_relation_ok G ev))
  = keys (nodes G)
    ++ first_seen (keys (nodes G)) [fst (event_pair ev); snd (event_pair ev)].
Proof.
  destruct ev as [[src tgt] a]. rewrite nodes_add_relation. cbn [event_pair fst snd].
  rewrite !keys_nodes_ensure_node.
  change [src; tgt] with ([src] ++ [tgt]). rewrite first_seen_app, app_assoc.
  reflexivity.
Qed.

Lemma edges_relation_phase (evs : list (string * string * attrs)) (G : DiGraph) :
  edges (fold_left add_relation_ok evs G) = fold_left edge_step evs (edges G).
Proof.
  revert G. induction evs as [|[[src tgt] a] evs IH]; intros G; cbn [fold_left];
    [reflexivity|].
  rewrite IH, edges_add_relation. reflexivity.
Qed.

Lemma keys_edge_step (es : dict (string * string) attrs) (ev : string * string * attrs) :
  keys (edge_step es ev) = keys es ++ first_seen (keys es) [event_pair ev].
Proof. apply keys_dict_set_first_seen. Qed.

Lemma flat_map_singleton {A B : Type} (f : A -> B) (l : list A) :
  flat_map (fun x => [f x]) l = map f l.
Proof. induction l as [|x l IH]; simpl; [reflexivity | now rewrite IH]. Qed.

Lemma flat_map_after_map {A B C : Type} (f : B -> list C) (g : A -> B) (l : list A) :
  flat_map f (map g l) = flat_map (fun x => f (g x)) l.
Proof. induction l as [|x l IH]; simpl; [reflexivity | now rewrite IH]. Qed.

Lemma map_fst_filter_source (u : string) (es : dict (string * string) attrs) :
  map fst (filter (fun e => fst (fst e) =? u) es)
  = filter (fun p => fst p =? u) (keys es).
Proof.
  unfold keys. induction es as [|[[a b] d] es IHes]; cbn [filter map fst];
    [reflexivity|].
  destruct (a =? u); cbn [map fst]; now rewrite IHes.
Qed.

Lemma map_fst_out_edges (G : DiGraph) :
  map fst (out_edges G)
  = flat_map (fun u => filter (fun p => fst p =? u) (keys (edges G))) (keys (nodes G)).
Proof.
  unfold out_edges. induction (keys (nodes G)) as [|u us IH]; cbn [flat_map map];
    [reflexivity|].
  now rewrite map_app, IH, map_fst_filter_source.
Qed.

Section Composition.
Variable json_loads : string -> result json.

Lemma length_declared_ids (df : option DataFrame) :
  List.length (declared_ids df) <= n_rows df.
Proof.
  unfold declared_ids, n_rows. destruct df as [d|]; [|simpl; lia].
  destruct (first_present (columns d) id_aliases); [|simpl; lia].
  unfold iterrows. rewrite !length_map. lia.
Qed.

Lemma length_relation_endpoints (df : option DataFrame) :
  List.length (relation_endpoints df) <= n_rows df.
Proof.
  unfold relation_endpoints, n_rows. destruct df as [d|]; [|simpl; lia].
  destruct (first_present (columns d) source_aliases); [|simpl; lia].
  destruct (first_present (columns d) target_aliases); [|simpl; lia].
  unfold iterrows. rewrite !length_map. lia.
Qed.

Lemma length_endpoint_ids (df : option DataFrame) :
  List.length (endpoint_ids df) = 2 * List.length (relation_endpoints df).
Proof.
  unfold endpoint_ids. induction (relation_endpoints df) as [|p l IH]; simpl;
    [reflexivity | rewrite IH; lia].
Qed.

(** X1: every edge of the assembled graph joins two nodes of the graph:
    lines 174-177 add a missing endpoint before line 180 adds the edge, so
    no edge names an id that [G.nodes] lacks. *)
Theorem X1_edges_join_nodes (doc draw rel : option DataFrame) (G : DiGraph)
    (u v : string) :
  build_graph json_loads doc draw rel = Ok G ->
  In (u, v) (keys (edges G)) ->
  In u (keys (nodes G)) /\ In v (keys (nodes G)).
Proof.
  intros HG Hin. apply build_graph_Ok in HG. subst G.
  apply In_edges_assembled in Hin.
  assert (Hends : In u (endpoint_ids rel) /\ In v (endpoint_ids rel)).
  { unfold endpoint_ids. split; apply in_flat_map; exists (u, v); simpl; auto. }
  split; apply In_nodes_assembled; rewrite !in_app_iff; tauto.
Qed.

(** X2: the graph counts at most one node for each node row and two for
    each relation row, and at most one edge for each relation row. *)
Theorem X2_size_bounds (doc draw rel : option DataFrame) (G : DiGraph) :
  build_graph json_loads doc draw rel = Ok G ->
  List.length (nodes G) <= n_rows doc + n_rows draw + 2 * n_rows rel
  /\ List.length (edges G) <= n_rows rel.
Proof.
  intros HG. apply build_graph_Ok in HG. subst G. split.
  - rewrite <- (length_map fst).
    etransitivity;
      [apply (@NoDup_incl_length _ _
                (declared_ids doc ++ declared_ids draw ++ endpoint_ids rel));
       [apply NoDup_nodes_assembled | intros x; apply In_nodes_assembled]|].
    rewrite !length_app, length_endpoint_ids.
    pose proof (length_declared_ids doc). pose proof (length_declared_ids draw).
    pose proof (length_relation_endpoints rel). lia.
  - rewrite <- (length_map fst).
    etransitivity;
      [apply (@NoDup_incl_length _ _ (relation_endpoints rel));
       [apply NoDup_edges_assembled | intros x; apply In_edges_assembled]|].
    apply length_relation_endpoints.
Qed.

(** The edge dictionary of the model gains its pairs as they first
    appear. *)
Lemma keys_edges_assembled (doc draw rel : option DataFrame) :
  keys (edges (assembled json_loads doc draw rel))
  = first_seen [] (relation_endpoints rel).
Proof.
  unfold assembled. rewrite edges_relation_phase, edges_node_phase.
  rewrite (keys_fold_first_seen (fun es => keys es) edge_step
             (fun ev => [event_pair ev]) keys_edge_step).
  simpl. now rewrite flat_map_singleton, map_event_pair_edge_events.
Qed.

(** X3: the nodes of the graph stand in the order in which their ids first
    appear: the rows of the first node table, then those of the second,
    then the relation rows with the source before the target.  [G.edges]
    follows the nodes in that order and gives, for each node, the edges
    that leave it in the order in which their targets first appear. *)
Theorem X3_insertion_order (doc draw rel : option DataFrame) (G : DiGraph) :
  build_graph json_loads doc draw rel = Ok G ->
  keys (nodes G)
  = first_seen [] (declared_ids doc ++ declared_ids draw ++ endpoint_ids rel)
  /\ map fst (out_edges G)
     = flat_map (fun u => filter (fun p => fst p =? u)
                            (first_seen [] (relation_endpoints rel)))
         (keys (nodes G)).
Proof.
  intros HG. apply build_graph_Ok in HG. subst G.
  rewrite map_fst_out_edges, keys_edges_assembled.
  split; [|reflexivity]. unfold assembled.
  rewrite (keys_fold_first_seen (fun G => keys (nodes G)) add_relation_ok
               (fun ev => [fst (event_pair ev); snd (event_pair ev)])
               keys_nodes_add_relation).
    rewrite (keys_fold_first_seen (fun G => keys (nodes G)) merge_node_ok
               (fun ev => [event_id ev]) keys_nodes_merge_node).
    simpl keys. cbn [app]. rewrite flat_map_singleton, map_app.
    rewrite !map_event_id_node_events.
    unfold endpoint_ids.
    rewrite <- (map_event_pair_edge_events json_loads rel), flat_map_after_map.
    rewrite (app_assoc (declared_ids doc)).
    rewrite (first_seen_app [] (declared_ids doc ++ declared_ids draw)).
    reflexivity.
Qed.
End Composition.

(** ** What the relation rows leave alone, and what the node rows do *)

Lemma relationship_key_relation_phase (evs : list (string * string * attrs))
    (G : DiGraph) :
  (forall ev, In ev evs -> In "relationship" (keys (snd ev))) ->
  (forall e a, dict_get e (edges G) = Some a -> In "relationship" (keys a)) ->
  forall e a, dict_get e (edges (fold_left add_relation_ok evs G)) = Some a ->
              In "relationship" (keys a).
Proof.
  revert G. induction evs as [|[[src tgt] a0] evs IH]; intros G Hevs HG;
    cbn [fold_left]; [assumption|].
  apply IH; [intros ev Hev; apply Hevs; now right|].
  intros e a. rewrite edges_add_relation, dict_get_set.
  destruct (keqb e (src, tgt)); [|apply HG].
  intros [= <-]. apply In_keys_dict_update. right.
  apply (Hevs (src, tgt, a0)). now left.
Qed.

Lemma keys_merged_attrs (cur : option attrs) (node_type : option cell) (props : attrs)
    (k : string) :
  In k (keys (merged_attrs cur node_type props)) ->
  In k (keys_of cur) \/ k = "node_type" \/ In k (keys props).
Proof.
  unfold merged_attrs, keys_of. destruct cur as [a|].
  - rewrite In_keys_dict_update. intros [Hin|Hin]; [|tauto].
    destruct node_type as [t|]; [destruct (truthy t)|]; try tauto.
    unfold dict_setdefault in Hin. destruct (dict_has "node_type" a); [tauto|].
    apply In_keys_dict_set in Hin. tauto.
  - rewrite In_keys_dict_update. intros [[]|Hin].
    apply In_keys_dict_update in Hin. destruct Hin as [Hin|Hin]; [|tauto].
    destruct node_type as [t|]; [destruct (truthy t)|]; simpl in Hin;
      intuition congruence.
Qed.

Lemma keys_track (x : string) (evs : list (string * option cell * attrs))
    (cur : option attrs) (k : string) :
  In k (keys_of (fold_left (track x) evs cur)) ->
  In k (keys_of cur) \/ k = "node_type"
  \/ exists ev, In ev evs /\ event_id ev = x /\ In k (keys (snd ev)).
Proof.
  revert cur. induction evs as [|ev evs IH]; intros cur; cbn [fold_left]; [tauto|].
  intros Hin. apply IH in Hin. destruct Hin as [Hin|[Hin|(ev' & Hev & Hid & Hk)]].
  - unfold track in Hin. destruct (String.eqb_spec (event_id ev) x) as [Hid|Hne];
      [|tauto].
    cbn [keys_of] in Hin. apply keys_merged_attrs in Hin.
    destruct Hin as [Hin|[Hin|Hin]]; [tauto | tauto |].
    right. right. exists ev. simpl. tauto.
  - tauto.
  - right. right. exists ev'. simpl. tauto.
Qed.

Lemma track_declared (x : string) (evs : list (string * option cell * attrs))
    (cur : option attrs) :
  fold_left (track x) evs cur = None <-> cur = None /\ ~ In x (map event_id evs).
Proof.
  revert cur. induction evs as [|ev evs IH]; intros cur; cbn [fold_left map].
  - simpl. tauto.
  - rewrite IH. unfold track. simpl.
    destruct (String.eqb_spec (event_id ev) x) as [Hid|Hne].
    + split; [intros [Hf _]; discriminate | tauto].
    + tauto.
Qed.

Lemma existsb_after_map {A B : Type} (f : B -> bool) (g : A -> B) (l : list A) :
  existsb f (map g l) = existsb (fun x => f (g x)) l.
Proof. induction l as [|x l IH]; simpl; [reflexivity | now rewrite IH]. Qed.

Section Origins.
Variable json_loads : string -> result json.

Lemma keys_node_events (df : option DataFrame) (ev : string * option cell * attrs)
    (k : string) :
  In ev (node_events json_loads df) -> In k (keys (snd ev)) ->
  In k (node_property_columns df).
Proof.
  unfold node_events, node_property_columns. destruct df as [d|]; [|intros []].
  destruct (first_present (columns d) id_aliases) as [id_col|]; [|intros []].
  intros Hev Hk. apply in_map_iff in Hev. destruct Hev as (row & <- & Hrow).
  unfold node_fields in Hk. cbn [snd] in Hk.
  apply keys_parse_properties in Hk. destruct Hk as (Hk & Hdrop).
  rewrite (index_iterrows _ _ Hrow) in Hk.
  apply filter_In. split; [assumption | now rewrite Hdrop].
Qed.

Lemma keys_edge_events (df : option DataFrame) (ev : string * string * attrs)
    (k : string) :
  In ev (edge_events json_loads df) -> In k (keys (snd ev)) ->
  k = "relationship" \/ In k (edge_property_columns df).
Proof.
  unfold edge_events, edge_property_columns. destruct df as [d|]; [|intros []].
  destruct (first_present (columns d) source_aliases) as [s_col|]; [|intros []].
  destruct (first_present (columns d) target_aliases) as [t_col|]; [|intros []].
  intros Hev Hk. apply in_map_iff in Hev. destruct Hev as (row & <- & Hrow).
  unfold relation_fields, edge_attrs in Hk. cbn [snd] in Hk.
  apply In_keys_dict_update in Hk. destruct Hk as [[<-|[]]|Hk]; [now left|].
  right. apply keys_parse_properties in Hk. destruct Hk as (Hk & Hdrop).
  rewrite (index_iterrows _ _ Hrow) in Hk.
  apply filter_In. split; [assumption | now rewrite Hdrop].
Qed.

Lemma relationship_key_edge_events (df : option DataFrame)
    (ev : string * string * attrs) :
  In ev (edge_events json_loads df) -> In "relationship" (keys (snd ev)).
Proof.
  unfold edge_events. destruct df as [d|]; [|intros []].
  destruct (first_present (columns d) source_aliases) as [s_col|]; [|intros []].
  destruct (first_present (columns d) target_aliases) as [t_col|]; [|intros []].
  intros Hev. apply in_map_iff in Hev. destruct Hev as (row & <- & Hrow).
  unfold relation_fields, edge_attrs. cbn [snd].
  apply In_keys_dict_update. left. simpl. auto.
Qed.

(** The attributes of a declared id after the node tables. *)
Lemma get_declared (doc draw rel : option DataFrame) (x : string) :
  dict_get x (nodes (assembled json_loads doc draw rel))
  = match fold_left (track x)
            (node_events json_loads doc ++ node_events json_loads draw) None with
    | Some a => Some a
    | None => if existsb (fun p => (x =? fst p) || (x =? snd p)) (relation_endpoints rel)
              then Some placeholder_attrs else None
    end.
Proof.
  unfold assembled. rewrite get_nodes_relation_phase, get_nodes_node_phase.
  simpl dict_get.
  destruct (fold_left (track x) _ None); [reflexivity|].
  rewrite <- (map_event_pair_edge_events json_loads rel), existsb_after_map.
  reflexivity.
Qed.

(** X4: the relation rows never touch an entity that a node table
    declares.  Without the relation table the graph holds exactly the
    declared ids and no edge, and each of them has the same attributes in
    the graph built with the relation table. *)
Theorem X4_relations_keep_declared (doc draw rel : option DataFrame) (G : DiGraph) :
  build_graph json_loads doc draw rel = Ok G ->
  exists G0,
    build_graph json_loads doc draw None = Ok G0
    /\ edges G0 = []
    /\ (forall x, In x (keys (nodes G0)) <-> In x (declared_ids doc ++ declared_ids draw))
    /\ forall x a, dict_get x (nodes G0) = Some a -> dict_get x (nodes G) = Some a.
Proof.
  intros HG. pose proof (@build_graph_Ok_inv json_loads _ _ _ _ HG) as (H1 & H2 & H3 & H4 & _).
  apply build_graph_Ok in HG. subst G.
  exists (assembled json_loads doc draw None).
  split; [now apply build_graph_Ok_intro|].
  split; [unfold assembled; simpl; apply edges_node_phase|].
  split.
  - intros x. rewrite In_nodes_assembled. unfold endpoint_ids. simpl.
    now rewrite app_nil_r.
  - intros x a. rewrite !get_declared. simpl.
    destruct (fold_left (track x) _ None); [trivial | discriminate].
Qed.

(** X5: which edges the graph has, and the data of each, depend on the
    relation table alone: built from the relation table without the node
    tables, the graph has an edge for the same ordered pairs, each with
    the same data.  (The order in which [G.edges] gives them follows the
    nodes and is not part of this.) *)
Theorem X5_edges_from_relations_alone (doc draw rel : option DataFrame) (G : DiGraph) :
  build_graph json_loads doc draw rel = Ok G ->
  exists G1,
    build_graph json_loads None None rel = Ok G1
    /\ forall e, dict_get e (edges G1) = dict_get e (edges G).
Proof.
  intros HG.
  pose proof (@build_graph_Ok_inv json_loads _ _ _ _ HG) as (_ & _ & _ & _ & H5 & H6).
  apply build_graph_Ok in HG. subst G.
  exists (assembled json_loads None None rel).
  split; [now apply build_graph_Ok_intro|].
  intros e. unfold assembled.
  now rewrite !edges_relation_phase, !edges_node_phase.
Qed.

(** X6: structural columns never become attributes.  Every attribute key
    of a node is node_type, placeholder, or a column of a node table other
    than its id and type columns; every attribute key of an edge is
    relationship or a column of the relation table other than its source,
    target and relation-type columns, and relationship is always there. *)
Theorem X6_attribute_keys (doc draw rel : option DataFrame) (G : DiGraph) :
  build_graph json_loads doc draw rel = Ok G ->
  (forall x a k, dict_get x (nodes G) = Some a -> In k (keys a) ->
     k = "node_type" \/ k = "placeholder"
     \/ In k (node_property_columns doc ++ node_property_columns draw))
  /\ (forall e a, dict_get e (edges G) = Some a ->
        In "relationship" (keys a)
        /\ forall k, In k (keys a) ->
             k = "relationship" \/ In k (edge_property_columns rel)).
Proof.
  intros HG. apply build_graph_Ok in HG. subst G. split.
  - intros x a k. rewrite get_declared.
    destruct (fold_left (track x) _ None) as [a'|] eqn:Hf.
    + intros [= <-] Hk.
      assert (Hk' : In k (keys_of (fold_left (track x)
                 (node_events json_loads doc ++ node_events json_loads draw) None)))
        by now rewrite Hf.
      apply keys_track in Hk'. destruct Hk' as [[]|[->|(ev & Hev & _ & Hkev)]]; [tauto|].
      right. right. apply in_app_iff in Hev. apply in_app_iff.
      destruct Hev as [Hev|Hev]; [left | right]; eapply keys_node_events; eassumption.
    + destruct (existsb _ _); [|discriminate]. intros [= <-] Hk.
      simpl in Hk. intuition congruence.
  - intros e a Ha. split.
    + revert e a Ha. unfold assembled. apply relationship_key_relation_phase.
      * apply relationship_key_edge_events.
      * rewrite edges_node_phase. discriminate.
    + revert e a Ha. unfold assembled.
      rewrite edges_relation_phase, edges_node_phase. simpl edges.
      assert (Hgen : forall evs (es : dict (string * string) attrs),
                 (forall ev, In ev evs -> In ev (edge_events json_loads rel)) ->
                 (forall e (a : attrs), dict_get e es = Some a -> forall k, In k (keys a) ->
                    k = "relationship" \/ In k (edge_property_columns rel)) ->
                 forall e a, dict_get e (fold_left edge_step evs es) = Some a ->
                   forall k, In k (keys a) ->
                     k = "relationship" \/ In k (edge_property_columns rel)).
      { induction evs as [|ev evs IH]; intros es Hsub Hes; cbn [fold_left];
          [assumption|].
        apply IH; [intros ev' Hev'; apply Hsub; now right|].
        intros e a. unfold edge_step. rewrite dict_get_set.
        destruct (keqb e (event_pair ev)) eqn:He; [|apply Hes].
        intros [= <-] k Hk. apply In_keys_dict_update in Hk.
        destruct Hk as [Hk|Hk].
        - destruct (dict_get (event_pair ev) es) eqn:Hold; [|now simpl in Hk].
          eapply Hes; eassumption.
        - eapply keys_edge_events; [apply Hsub; now left | assumption]. }
      apply Hgen; [tauto | discriminate].
Qed.
End Origins.

(** ** Placeholders, and the order of the node tables *)

Lemma track_other (x : string) (evs : list (string * option cell * attrs))
    (cur : option attrs) :
  ~ In x (map event_id evs) -> fold_left (track x) evs cur = cur.
Proof.
  revert cur. induction evs as [|ev evs IH]; intros cur Hout; cbn [fold_left];
    [reflexivity|].
  simpl in Hout. rewrite IH by tauto. unfold track.
  destruct (String.eqb_spec (event_id ev) x) as [Hid|Hne]; [tauto | reflexivity].
Qed.

Section Tables.
Variable json_loads : string -> result json.

(** X7: unless a node table has a property column named placeholder, the
    placeholder marker tells the undeclared ids from the declared ones: a
    node bears the key placeholder exactly when no node row declares its
    id, and then its attributes are node_type "unknown" and placeholder
    True and nothing else. *)
Theorem X7_placeholder_marks_undeclared (doc draw rel : option DataFrame) (G : DiGraph)
    (x : string) (a : attrs) :
  build_graph json_loads doc draw rel = Ok G ->
  ~ In "placeholder" (node_property_columns doc ++ node_property_columns draw) ->
  dict_get x (nodes G) = Some a ->
  (In "placeholder" (keys a) <-> ~ In x (declared_ids doc ++ declared_ids draw))
  /\ (~ In x (declared_ids doc ++ declared_ids draw) -> a = placeholder_attrs).
Proof.
  intros HG Hcol. apply build_graph_Ok in HG. subst G. rewrite get_declared.
  set (evs := node_events json_loads doc ++ node_events json_loads draw).
  assert (Hids : map event_id evs = declared_ids doc ++ declared_ids draw).
  { unfold evs. now rewrite map_app, !map_event_id_node_events. }
  rewrite <- Hids.
  destruct (fold_left (track x) evs None) as [a'|] eqn:Hf.
  - intros [= <-].
    assert (Hin : In x (map event_id evs)).
    { destruct (in_dec string_dec x (map event_id evs)) as [Hin|Hout]; [assumption|].
      rewrite (track_other x evs None Hout) in Hf. discriminate. }
    assert (Hno : ~ In "placeholder" (keys a')).
    { intros Hk.
      assert (Hk' : In "placeholder" (keys_of (fold_left (track x) evs None)))
        by now rewrite Hf.
      apply keys_track in Hk'.
      destruct Hk' as [[]|[Hk'|(ev & Hev & _ & Hkev)]]; [discriminate|].
      apply Hcol. unfold evs in Hev. apply in_app_iff in Hev. apply in_app_iff.
      destruct Hev as [Hev|Hev]; [left | right];
        eapply keys_node_events; eassumption. }
    tauto.
  - apply track_declared in Hf. destruct Hf as (_ & Hout).
    destruct (existsb _ _); [|discriminate]. intros [= <-].
    split; [|reflexivity]. split; [tauto|]. intros _. right. now left.
Qed.

(** X8: when the two node tables declare no id in common, their order does
    not matter to the content of the graph: with the tables swapped every
    id has the same attributes, and the edges are the same. *)
Theorem X8_disjoint_tables_commute (doc draw rel : option DataFrame) (G : DiGraph) :
  (forall x, In x (declared_ids doc) -> ~ In x (declared_ids draw)) ->
  build_graph json_loads doc draw rel = Ok G ->
  exists G',
    build_graph json_loads draw doc rel = Ok G'
    /\ (forall x, dict_get x (nodes G') = dict_get x (nodes G))
    /\ edges G' = edges G.
Proof.
  intros Hdis HG.
  pose proof (@build_graph_Ok_inv json_loads _ _ _ _ HG)
    as (H1 & H2 & H3 & H4 & H5 & H6).
  apply build_graph_Ok in HG. subst G.
  exists (assembled json_loads draw doc rel). split.
  { apply build_graph_Ok_intro; try assumption.
    - rewrite <- H4. apply node_rows_bind_agree. intros ev Hev.
      split; [intros []|]. intros Hin. exfalso.
      apply In_nodes_node_phase in Hin. destruct Hin as [[]|Hin].
      rewrite map_event_id_node_events in Hin. apply (Hdis _ Hin).
      rewrite <- (map_event_id_node_events json_loads draw). now apply in_map.
    - rewrite <- H2. apply node_rows_bind_agree. intros ev Hev.
      split; [|intros []]. intros Hin. exfalso.
      apply In_nodes_node_phase in Hin. destruct Hin as [[]|Hin].
      rewrite map_event_id_node_events in Hin.
      apply (Hdis (event_id ev)); [|assumption].
      rewrite <- (map_event_id_node_events json_loads doc). now apply in_map. }
  split.
  - intros x. rewrite !get_declared, !fold_left_app.
    destruct (in_dec string_dec x (declared_ids doc)) as [Hin|Hout].
    + assert (Hdraw : ~ In x (map event_id (node_events json_loads draw)))
        by (rewrite map_event_id_node_events; auto).
      now rewrite !(track_other x (node_events json_loads draw) _ Hdraw).
    + assert (Hdoc : ~ In x (map event_id (node_events json_loads doc)))
        by now rewrite map_event_id_node_events.
      now rewrite !(track_other x (node_events json_loads doc) _ Hdoc).
  - unfold assembled. now rewrite !edges_relation_phase, !edges_node_phase.
Qed.
End Tables.

(** ** Placeholders, columns and ids *)

Lemma kwargs_clash_keys (params : list string) (a : attrs) :
  (forall p, In p params -> ~ In p (keys a)) -> kwargs_clash params a = false.
Proof.
  intros Hfree. unfold kwargs_clash.
  destruct (existsb (fun p => dict_has p a) params) eqn:E; [|reflexivity].
  apply existsb_exists in E. destruct E as (p & Hp & Hh).
  apply dict_has_In in Hh. exfalso. exact (Hfree p Hp Hh).
Qed.

Lemma keys_type_attr (node_type : option cell) (k : string) :
  In k (keys (type_attr node_type)) -> k = "node_type".
Proof.
  unfold type_attr. destruct node_type as [t|]; [destruct (truthy t)|]; simpl;
    intuition congruence.
Qed.

Lemma node_rows_bind_all (evs : list (string * option cell * attrs)) (seen : list string) :
  (forall ev, In ev evs ->
     kwargs_clash add_node_params (dict_update (type_attr (snd (fst ev))) (snd ev))
     = false) ->
  node_rows_bind seen evs = true.
Proof.
  revert seen. induction evs as [|ev evs IH]; intros seen Hall; cbn [node_rows_bind];
    [reflexivity|].
  rewrite (Hall ev (or_introl eq_refl)). cbn [negb andb].
  destruct (mem (event_id ev) seen); apply IH; intros ev' Hev'; apply Hall; now right.
Qed.

Section Schema.
Variable json_loads : string -> result json.

(** Node rows always bind when no property column bears the name of a
    parameter of [add_node]. *)
Lemma node_rows_bind_columns (df : option DataFrame) (seen : list string) :
  (forall p, In p add_node_params -> ~ In p (node_property_columns df)) ->
  node_rows_bind seen (node_events json_loads df) = true.
Proof.
  intros Hfree. apply node_rows_bind_all. intros ev Hev.
  apply kwargs_clash_keys. intros p Hp Hk.
  apply In_keys_dict_update in Hk. destruct Hk as [Hk|Hk].
  - apply keys_type_attr in Hk. subst p. simpl in Hp. intuition discriminate.
  - apply (Hfree p Hp). eapply keys_node_events; eassumption.
Qed.

(** Relation rows always bind when no property column bears the name of a
    parameter of [add_edge]. *)
Lemma edge_rows_bind_columns (df : option DataFrame) :
  (forall p, In p add_edge_params -> ~ In p (edge_property_columns df)) ->
  edge_rows_bind (edge_events json_loads df) = true.
Proof.
  intros Hfree. unfold edge_rows_bind. apply forallb_forall. intros ev Hev.
  rewrite kwargs_clash_keys; [reflexivity|]. intros p Hp Hk.
  destruct (@keys_edge_events json_loads _ _ _ Hev Hk) as [->|Hcol].
  - simpl in Hp. intuition discriminate.
  - exact (Hfree p Hp Hcol).
Qed.


(** C8, as the code has it: resolution returns the first alias of the
    priority list found among the columns of the table.  When none is
    found the failure is a KeyError: [ensure_name] lists the candidates and
    names no field; a node table without id column raises a message that
    names the table and the aliases id/node_id/Id/ID; a relation table
    without source or without target column raises one fixed message that
    asks for source and target columns and cites source_id and target_id
    only.  An unmatched optional column (node type, relation type) resolves
    to None: the rows are read with no type, or with the relation type
    RELATED_TO, and the table raises no KeyError. *)
Theorem C8_column_resolution (cols candidates : list string) :
  (forall c, first_present cols candidates = Some c ->
     In c cols
     /\ exists before after,
          candidates = before ++ c :: after /\ forall x, In x before -> ~ In x cols)
  /\ (first_present cols candidates = None <->
      forall x, In x candidates -> ~ In x cols)
  /\ (forall df, columns df = cols -> first_present cols candidates = None ->
        ensure_name df candidates
        = Raise (KeyError ("None of the expected columns found in dataframe: "
                           ++ repr_list candidates)%string))
  /\ (forall G df source_label,
        first_present (columns df) id_aliases = None ->
        add_nodes_from_df json_loads G (Some df) source_label
        = Raise (KeyError ("No id column found in " ++ source_label
                           ++ "; expected one of id/node_id/Id/ID")%string))
  /\ (forall G df,
        first_present (columns df) source_aliases = None
        \/ first_present (columns df) target_aliases = None ->
        add_relations json_loads G (Some df)
        = Raise (KeyError
            "Relations CSV must contain source and target columns (e.g. source_id, target_id)"))
  /\ (forall G df source_label id_col,
        first_present (columns df) id_aliases = Some id_col ->
        first_present (columns df) type_aliases = None ->
        add_nodes_from_df json_loads G (Some df) source_label
        = fold_result (fun G0 row => merge_node G0 (node_fields json_loads id_col None row))
            (iterrows df) G
        /\ forall msg, add_nodes_from_df json_loads G (Some df) source_label
                       <> Raise (KeyError msg))
  /\ (forall G df s_col t_col,
        first_present (columns df) source_aliases = Some s_col ->
        first_present (columns df) target_aliases = Some t_col ->
        first_present (columns df) relation_aliases = None ->
        add_relations json_loads G (Some df)
        = fold_result (add_relation_row json_loads s_col t_col None) (iterrows df) G
        /\ forall msg, add_relations json_loads G (Some df) <> Raise (KeyError msg)).
Proof.
  split; [intros c; apply first_present_Some|].
  split; [apply first_present_None|].
  split; [intros df <- Hn; unfold ensure_name; now rewrite Hn|].
  split; [intros G df label Hn; unfold add_nodes_from_df; now rewrite Hn|].
  split.
  - intros G df [Hn|Hn]; unfold add_relations; rewrite Hn;
      [reflexivity | destruct (first_present (columns df) source_aliases); reflexivity].
  - split.
    + intros G df label id_col Hid Hty. split.
      * unfold add_nodes_from_df. now rewrite Hid, Hty.
      * intros msg. rewrite add_nodes_from_df_eq. unfold id_missing. rewrite Hid.
        destruct (node_rows_bind _ _); discriminate.
    + intros G df s_col t_col Hs Ht Hr. split.
      * unfold add_relations. now rewrite Hs, Ht, Hr.
      * intros msg. rewrite add_relations_eq. unfold endpoints_missing.
        rewrite Hs, Ht. destruct (edge_rows_bind _); discriminate.
Qed.

(** C9, as the code has it: a missing mandatory column raises a KeyError
    out of [build_graph], which then returns no graph at all.  The tables
    are taken in order, nodes_doc, nodes_draw, relations.  The error of a
    node table names the table and the id column; the error of the
    relation table asks for source and target columns without saying which
    is missing.  The error of a table is raised once the tables before it
    have been read without failure; the tables after it are not processed
    and what the tables before it added is lost with the graph.  A graph
    is returned only when no mandatory column is missing. *)
Theorem C9_missing_column_aborts (doc draw rel : option DataFrame) :
  (id_missing doc = true ->
   build_graph json_loads doc draw rel
   = Raise (KeyError "No id column found in nodes_doc; expected one of id/node_id/Id/ID"))
  /\ (forall G1,
        add_nodes_from_df json_loads empty_graph doc "nodes_doc" = Ok G1 ->
        id_missing draw = true ->
        build_graph json_loads doc draw rel
        = Raise (KeyError
            "No id column found in nodes_draw; expected one of id/node_id/Id/ID"))
  /\ (forall G1 G2,
        add_nodes_from_df json_loads empty_graph doc "nodes_doc" = Ok G1 ->
        add_nodes_from_df json_loads G1 draw "nodes_draw" = Ok G2 ->
        endpoints_missing rel = true ->
        build_graph json_loads doc draw rel
        = Raise (KeyError
            "Relations CSV must contain source and target columns (e.g. source_id, target_id)"))
  /\ (forall G,
        build_graph json_loads doc draw rel = Ok G ->
        id_missing doc = false /\ id_missing draw = false
        /\ endpoints_missing rel = false).
Proof.
  split; [|split; [|split]].
  - intros Hdoc. rewrite build_graph_eq, Hdoc. reflexivity.
  - intros G1 HG1 Hdraw. unfold build_graph. rewrite HG1. cbn [bind].
    rewrite add_nodes_from_df_eq, Hdraw. reflexivity.
  - intros G1 G2 HG1 HG2 Hrel. unfold build_graph. rewrite HG1. cbn [bind].
    rewrite HG2. cbn [bind]. rewrite add_relations_eq, Hrel. reflexivity.
  - intros G HG. apply build_graph_Ok_inv in HG. tauto.
Qed.

(** C10: every node id is [str] of an id cell of a node table or of an
    endpoint cell of the relation table, every edge joins [str] of the two
    endpoint cells of a relation row, and the graph has one node for each
    distinct string, so that cells with equal renderings share their
    entity.  Whatever the id and endpoint cells hold, [nan] and integers
    included, the assembly returns a graph, once the mandatory columns are
    found and no property column bears the name of a parameter of
    [add_node] (self, node_for_adding) or of [add_edge] (self, u_of_edge,
    v_of_edge), which the keyword call of lines 140 and 180 cannot bind. *)
Theorem C10_ids_are_str_of_cells (doc draw rel : option DataFrame) :
  id_missing doc = false -> id_missing draw = false -> endpoints_missing rel = false ->
  (forall p, In p add_node_params ->
     ~ In p (node_property_columns doc ++ node_property_columns draw)) ->
  (forall p, In p add_edge_params -> ~ In p (edge_property_columns rel)) ->
  exists G,
    build_graph json_loads doc draw rel = Ok G
    /\ (forall n, In n (keys (nodes G))
                  <-> In n (declared_ids doc ++ declared_ids draw ++ endpoint_ids rel))
    /\ (forall e, In e (keys (edges G)) <-> In e (relation_endpoints rel))
    /\ NoDup (keys (nodes G))
    /\ List.length (nodes G)
       = List.length (nodup string_dec
                        (declared_ids doc ++ declared_ids draw ++ endpoint_ids rel))
    /\ py_str CNaN = "nan".
Proof.
  intros Hdoc Hdraw Hrel Hnode Hedge. exists (assembled json_loads doc draw rel).
  split.
  { apply build_graph_Ok_intro; try assumption.
    - apply node_rows_bind_columns. intros p Hp Hin. apply (Hnode p Hp).
      apply in_app_iff. now left.
    - apply node_rows_bind_columns. intros p Hp Hin. apply (Hnode p Hp).
      apply in_app_iff. now right.
    - now apply edge_rows_bind_columns. }
  split; [apply In_nodes_assembled|].
  split; [apply In_edges_assembled|].
  split; [apply NoDup_nodes_assembled|].
  split; [|reflexivity].
  apply length_dict_nodup; [apply NoDup_nodes_assembled | apply In_nodes_assembled].
Qed.
End Schema.

(** ** Keywords that do not bind *)

Section Keywords.
Variable json_loads : string -> result json.

(** X18: [build_graph] raises a TypeError only from the keyword calls of
    lines 140 and 180: when it does, a property column of a node table is
    named self or node_for_adding, or a property column of the relation
    table is named self, u_of_edge or v_of_edge. *)
Theorem X18_type_error_from_reserved_column (doc draw rel : option DataFrame) :
  build_graph json_loads doc draw rel = Raise TypeError ->
  exists p,
    (In p add_node_params
     /\ In p (node_property_columns doc ++ node_property_columns draw))
    \/ (In p add_edge_params /\ In p (edge_property_columns rel)).
Proof.
  intros H.
  destruct (existsb (fun p => mem p (node_property_columns doc
                                     ++ node_property_columns draw))
              add_node_params) eqn:En.
  { apply existsb_exists in En. destruct En as (p & Hp & Hm).
    apply mem_In in Hm. exists p. now left. }
  destruct (existsb (fun p => mem p (edge_property_columns rel)) add_edge_params) eqn:Ee.
  { apply existsb_exists in Ee. destruct Ee as (p & Hp & Hm).
    apply mem_In in Hm. exists p. now right. }
  exfalso.
  assert (Hnode : forall p, In p add_node_params ->
            ~ In p (node_property_columns doc ++ node_property_columns draw)).
  { intros p Hp Hin. apply mem_In in Hin.
    assert (Hex : existsb (fun p => mem p (node_property_columns doc
                                          ++ node_property_columns draw))
                    add_node_params = true)
      by (apply existsb_exists; now exists p).
    congruence. }
  assert (Hedge : forall p, In p add_edge_params -> ~ In p (edge_property_columns rel)).
  { intros p Hp Hin. apply mem_In in Hin.
    assert (Hex : existsb (fun p => mem p (edge_property_columns rel))
                    add_edge_params = true)
      by (apply existsb_exists; now exists p).
    congruence. }
  rewrite build_graph_eq in H.
  rewrite (@node_rows_bind_columns json_loads doc) in H
    by (intros p Hp Hin; apply (Hnode p Hp); apply in_app_iff; now left).
  rewrite (@node_rows_bind_columns json_loads draw) in H
    by (intros p Hp Hin; apply (Hnode p Hp); apply in_app_iff; now right).
  rewrite (@edge_rows_bind_columns json_loads rel Hedge) in H.
  cbn [negb] in H. unfold no_id_column, no_source_target in H.
  destruct (id_missing doc); [discriminate|].
  destruct (id_missing draw); [discriminate|].
  destruct (endpoints_missing rel); discriminate.
Qed.
End Keywords.

Lemma X18_type_error_from_reserved_column_witness :
  build_graph json_loads_subset (Some table_a) None (Some table_rel_u) = Raise TypeError
  /\ exists p,
       (In p add_node_params
        /\ In p (node_property_columns (Some table_a) ++ node_property_columns None))
       \/ (In p add_edge_params /\ In p (edge_property_columns (Some table_rel_u))).
Proof.
  split; [vm_compute; reflexivity|].
  apply (@X18_type_error_from_reserved_column json_loads_subset (Some table_a) None
           (Some table_rel_u)).
  vm_compute; reflexivity.
Defined.

(** A first table with a column named self fails on its first row, before
    the second table, which has no id column, is looked at. *)
Lemma type_error_before_key_error :
  build_graph json_loads_subset (Some table_self) (Some table_no_id) None
  = Raise TypeError.
Proof. vm_compute; reflexivity. Qed.


Lemma C8_column_resolution_witness :
  first_present ["Id"; "node_id"; "name"] id_aliases = Some "node_id"
  /\ In "node_id" ["Id"; "node_id"; "name"]
  /\ exists before after,
       id_aliases = before ++ "node_id" :: after
       /\ forall x, In x before -> ~ In x ["Id"; "node_id"; "name"].
Proof.
  split; [reflexivity|].
  apply (proj1 (C8_column_resolution json_loads_subset ["Id"; "node_id"; "name"]
                  id_aliases) "node_id").
  reflexivity.
Defined.

(** The error of a relation table with the columns src and dst does not
    list the candidates: the aliases from and To are not in its message. *)
Lemma C8_counterexample :
  exists msg,
    build_graph json_loads_subset None None (Some table_rel_bad) = Raise (KeyError msg)
    /\ In "from" source_aliases /\ contains msg "from" = false
    /\ In "To" target_aliases /\ contains msg "To" = false.
Proof.
  eexists. split; [vm_compute; reflexivity|].
  repeat split; try (simpl; tauto); vm_compute; reflexivity.
Qed.

Lemma C9_missing_column_aborts_witness :
  build_graph json_loads_subset (Some table_a) (Some table_b) (Some table_rel_bad)
  = Raise (KeyError
      "Relations CSV must contain source and target columns (e.g. source_id, target_id)").
Proof.
  destruct (C9_missing_column_aborts json_loads_subset (Some table_a) (Some table_b)
              (Some table_rel_bad)) as (_ & _ & H & _).
  eapply H; vm_compute; reflexivity.
Defined.

(** The first table has no id column; the second table and the relations
    are sound, and no graph comes back. *)
Lemma C9_counterexample :
  build_graph json_loads_subset (Some table_no_id) (Some table_b) (Some table_rel)
  = Raise (KeyError "No id column found in nodes_doc; expected one of id/node_id/Id/ID")
  /\ forall G,
       build_graph json_loads_subset (Some table_no_id) (Some table_b) (Some table_rel)
       <> Ok G.
Proof. split; [vm_compute; reflexivity | intros G; vm_compute; discriminate]. Qed.

Lemma C10_ids_are_str_of_cells_witness :
  exists G,
    build_graph json_loads_subset (Some table_mixed_ids) None (Some table_rel_mixed) = Ok G
    /\ keys (nodes G) = ["7"; "nan"; "8"]
    /\ keys (edges G) = [("7", "nan"); ("7", "8")].
Proof.
  destruct (@C10_ids_are_str_of_cells json_loads_subset (Some table_mixed_ids) None
              (Some table_rel_mixed) eq_refl eq_refl eq_refl) as (G & HG & _).
  - intros p [<-|[<-|[]]]; vm_compute; intuition discriminate.
  - intros p [<-|[<-|[<-|[]]]]; vm_compute; intuition discriminate.
  - exists G. split; [exact HG|].
    vm_compute in HG. injection HG as <-. split; reflexivity.
Defined.

(** ** A node table read twice *)

Lemma NoDup_map_fst_filter {A B : Type} (f : A * B -> bool) (l : list (A * B)) :
  NoDup (map fst l) -> NoDup (map fst (filter f l)).
Proof.
  induction l as [|p l IH]; simpl; intros Hnd; [constructor|].
  inversion Hnd as [|? ? Hout Hnd']; subst.
  destruct (f p); simpl; [|now apply IH].
  constructor; [|now apply IH].
  intros Hin. apply Hout. apply in_map_iff in Hin. destruct Hin as (q & Hq & Hin).
  apply filter_In in Hin. rewrite <- Hq. apply in_map. tauto.
Qed.

Lemma first_seen_nil {K : Type} `{EqKey K} (s l : list K) :
  (forall x, In x l -> In x s) -> first_seen s l = [].
Proof.
  intros Hsub. destruct (first_seen s l) as [|y r] eqn:Hf; [reflexivity|].
  assert (Hy : In y (first_seen s l)) by (rewrite Hf; now left).
  apply In_first_seen in Hy. destruct Hy as (Hy & Hout). now apply Hsub in Hy.
Qed.

(** The value of any attribute after [merge_node_ok], when the properties of
    the row have distinct keys. *)
Lemma merged_attrs_get (cur : option attrs) (node_type : option cell) (props : attrs)
    (k : string) :
  NoDup (keys props) ->
  dict_get k (merged_attrs cur node_type props)
  = match dict_get k props with
    | Some w => Some w
    | None =>
        match attr_of cur k with
        | Some v => Some v
        | None =>
            if k =? "node_type" then
              match node_type with
              | Some t => if truthy t then Some (of_cell t) else None
              | None => None
              end
            else None
        end
    end.
Proof.
  intros Hnd.
  assert (Hupd : forall d : attrs,
             dict_get k (dict_update d props)
             = match dict_get k props with Some w => Some w | None => dict_get k d end).
  { intros d. destruct (dict_get k props) eqn:Hp;
      [now apply dict_get_update_in | now apply dict_get_update_other]. }
  assert (Hty : dict_get k (match node_type with
                            | Some t => if truthy t then [("node_type", of_cell t)] else []
                            | None => []
                            end : attrs)
                = if k =? "node_type" then
                    match node_type with
                    | Some t => if truthy t then Some (of_cell t) else None
                    | None => None
                    end
                  else None).
  { destruct node_type as [t|]; [destruct (truthy t)|]; simpl;
      destruct (k =? "node_type"); reflexivity. }
  unfold merged_attrs, attr_of. destruct cur as [a|].
  - rewrite Hupd. destruct (dict_get k props); [reflexivity|].
    destruct node_type as [t|]; [destruct (truthy t)|];
      try (destruct (dict_get k a); [reflexivity | destruct (k =? "node_type"); reflexivity]).
    unfold dict_setdefault, dict_has.
    destruct (dict_get "node_type" a) eqn:Ha.
    + destruct (dict_get k a) eqn:Hk; [reflexivity|].
      destruct (String.eqb_spec k "node_type") as [->|Hne]; [congruence | reflexivity].
    + rewrite dict_get_set. simpl.
      destruct (String.eqb_spec k "node_type") as [->|Hne]; [now rewrite Ha|].
      destruct (dict_get k a); reflexivity.
  - rewrite dict_update_nil_l.
    + rewrite Hupd. destruct (dict_get k props); [reflexivity | exact Hty].
    + apply NoDup_dict_update.
      destruct node_type as [t|]; [destruct (truthy t)|]; simpl;
        repeat constructor; simpl; tauto.
Qed.

(** The value of any attribute of [x] after its rows: the last row that
    has the property decides; failing that the value found before; failing
    that, for node_type, the first type that passes [if node_type]. *)
Lemma track_get (x k : string) (evs : list (string * option cell * attrs))
    (cur : option attrs) :
  (forall ev, In ev evs -> event_id ev = x -> NoDup (keys (snd ev))) ->
  attr_of (fold_left (track x) evs cur) k
  = match last_prop x k evs with
    | Some w => Some w
    | None =>
        match attr_of cur k with
        | Some v => Some v
        | None =>
            if k =? "node_type" then option_map of_cell (first_type x evs) else None
        end
    end.
Proof.
  revert cur. induction evs as [|[[node_id node_type] props] evs IH]; intros cur Hevs.
  - simpl. destruct (attr_of cur k); [reflexivity | now destruct (k =? "node_type")].
  - cbn [fold_left]. rewrite IH by (intros ev Hev; apply Hevs; now right).
    cbn [first_type last_prop]. destruct (last_prop x k evs); [reflexivity|].
    unfold track, event_id. cbn [fst snd].
    destruct (String.eqb_spec node_id x) as [->|Hne]; [|reflexivity].
    cbn [attr_of]. rewrite merged_attrs_get by (apply (Hevs (x, node_type, props));
                                                 [now left | reflexivity]).
    destruct (dict_get k props); [reflexivity|].
    destruct (attr_of cur k); [reflexivity|].
    destruct (k =? "node_type"); [|reflexivity].
    destruct node_type as [t|]; [destruct (truthy t)|]; reflexivity.
Qed.

Lemma NoDup_merged_attrs (cur : option attrs) (node_type : option cell) (props : attrs) :
  NoDup (keys_of cur) -> NoDup (keys (merged_attrs cur node_type props)).
Proof.
  unfold merged_attrs, keys_of. destruct cur as [a|]; intros Hnd.
  - apply NoDup_dict_update.
    destruct node_type as [t|]; [destruct (truthy t)|]; try assumption.
    unfold dict_setdefault. destruct (dict_has "node_type" a);
      [assumption | now apply NoDup_dict_set].
  - apply NoDup_dict_update. constructor.
Qed.

Lemma NoDup_track (x : string) (evs : list (string * option cell * attrs))
    (cur : option attrs) :
  NoDup (keys_of cur) -> NoDup (keys_of (fold_left (track x) evs cur)).
Proof.
  revert cur. induction evs as [|ev evs IH]; intros cur Hnd; cbn [fold_left];
    [assumption|].
  apply IH. unfold track. destruct (event_id ev =? x); [|assumption].
  cbn [keys_of]. now apply NoDup_merged_attrs.
Qed.

Lemma keys_merged_attrs_grow (cur : option attrs) (node_type : option cell)
    (props : attrs) (k : string) :
  In k (keys_of cur) \/ writes (k, node_type, props) k ->
  In k (keys (merged_attrs cur node_type props)).
Proof.
  unfold writes, merged_attrs, keys_of. cbn [fst snd].
  intros [Hin|[Hin|(-> & Hty)]].
  - destruct cur as [a|]; [|destruct Hin].
    apply In_keys_dict_update. left.
    destruct node_type as [t|]; [destruct (truthy t)|]; try assumption.
    unfold dict_setdefault. destruct (dict_has "node_type" a); [assumption|].
    apply In_keys_dict_set. now right.
  - destruct cur as [a|]; apply In_keys_dict_update; [now right|].
    right. apply In_keys_dict_update. now right.
  - destruct node_type as [t|]; [|destruct Hty]. rewrite Hty.
    destruct cur as [a|]; apply In_keys_dict_update.
    + left. unfold dict_setdefault. destruct (dict_has "node_type" a) eqn:Hh;
        [now apply dict_has_In | apply In_keys_dict_set; now left].
    + right. apply In_keys_dict_update. left. simpl. auto.
Qed.

Lemma keys_track_grow (x : string) (evs : list (string * option cell * attrs))
    (cur : option attrs) (k : string) :
  In k (keys_of cur)
  \/ (exists ev, In ev evs /\ event_id ev = x /\ writes ev k) ->
  In k (keys_of (fold_left (track x) evs cur)).
Proof.
  revert cur. induction evs as [|[[node_id node_type] props] evs IH]; intros cur;
    cbn [fold_left].
  - intros [Hin|(ev & [] & _)]. assumption.
  - intros Hk. apply IH. unfold track, event_id. cbn [fst snd].
    destruct Hk as [Hin|(ev & [<-|Hev] & Hid & Hw)].
    + left. destruct (node_id =? x); [|assumption].
      cbn [keys_of]. apply keys_merged_attrs_grow. now left.
    + left. unfold event_id in Hid. cbn [fst] in Hid. subst node_id.
      rewrite String.eqb_refl. cbn [keys_of]. apply keys_merged_attrs_grow.
      right. unfold writes in Hw |- *. cbn [fst snd] in Hw |- *. exact Hw.
    + right. exists ev. tauto.
Qed.

(** Rows that write only keys already there leave the list of keys as it
    is. *)
Lemma keys_track_stable (x : string) (evs : list (string * option cell * attrs))
    (a : attrs) :
  (forall ev k, In ev evs -> event_id ev = x -> writes ev k -> In k (keys a)) ->
  exists a', fold_left (track x) evs (Some a) = Some a' /\ keys a' = keys a.
Proof.
  revert a. induction evs as [|[[node_id node_type] props] evs IH]; intros a Hw;
    cbn [fold_left]; [now exists a|].
  unfold track at 2. unfold event_id. cbn [fst snd].
  destruct (String.eqb_spec node_id x) as [->|Hne].
  - assert (Hk : keys (merged_attrs (Some a) node_type props) = keys a).
    { unfold merged_attrs. rewrite keys_dict_update_present.
      - destruct node_type as [t|]; [destruct (truthy t) eqn:Ht|]; try reflexivity.
        unfold dict_setdefault.
        rewrite (proj2 (dict_has_In "node_type" a)); [reflexivity|].
        apply (Hw (x, Some t, props)); [now left | reflexivity|].
        right. cbn [fst snd]. auto.
      - intros k Hk.
        assert (Hka : In k (keys a)).
        { apply (Hw (x, node_type, props)); [now left | reflexivity | now left]. }
        destruct node_type as [t|]; [destruct (truthy t)|]; try assumption.
        unfold dict_setdefault. destruct (dict_has "node_type" a); [assumption|].
        apply In_keys_dict_set. now right. }
    destruct (IH (merged_attrs (Some a) node_type props)) as (a' & Ha' & Hk').
    + intros ev k Hev Hid Hwr. rewrite Hk. apply (Hw ev k); [now right | assumption..].
    + exists a'. split; [assumption | congruence].
  - apply IH. intros ev k Hev. apply Hw. now right.
Qed.

(** Reading the rows of [x] a second time changes nothing. *)
Lemma track_twice (x : string) (evs : list (string * option cell * attrs)) :
  (forall ev, In ev evs -> event_id ev = x -> NoDup (keys (snd ev))) ->
  fold_left (track x) evs (fold_left (track x) evs None)
  = fold_left (track x) evs None.
Proof.
  intros Hnd. destruct (fold_left (track x) evs None) as [a|] eqn:Hf.
  - destruct (@keys_track_stable x evs a) as (a' & Ha' & Hk).
    { intros ev k Hev Hid Hw.
      change (In k (keys_of (Some a))). rewrite <- Hf.
      apply keys_track_grow. right. exists ev. tauto. }
    rewrite Ha'. f_equal. symmetry. apply dict_ext.
    + change (NoDup (keys_of (Some a))). rewrite <- Hf. apply NoDup_track. constructor.
    + now symmetry.
    + intros k.
      pose proof (@track_get x k evs (Some a) Hnd) as H1. rewrite Ha' in H1.
      pose proof (@track_get x k evs None Hnd) as H2. rewrite Hf in H2.
      cbn [attr_of] in H1, H2. rewrite H1, H2.
      destruct (last_prop x k evs); [reflexivity|].
      destruct (k =? "node_type"); [|reflexivity].
      destruct (first_type x evs); reflexivity.
  - apply track_declared in Hf. destruct Hf as (_ & Hout).
    now apply track_other.
Qed.

Lemma graph_ext (G1 G2 : DiGraph) :
  nodes G1 = nodes G2 -> edges G1 = edges G2 -> G1 = G2.
Proof. destruct G1, G2; simpl; intros -> ->; reflexivity. Qed.

Lemma node_phase_twice (evs : list (string * option cell * attrs)) :
  (forall ev, In ev evs -> NoDup (keys (snd ev))) ->
  fold_left merge_node_ok evs (fold_left merge_node_ok evs empty_graph)
  = fold_left merge_node_ok evs empty_graph.
Proof.
  intros Hnd. apply graph_ext; [|now rewrite !edges_node_phase].
  symmetry. apply dict_ext.
  - apply NoDup_nodes_node_phase. constructor.
  - rewrite (keys_fold_first_seen (fun G => keys (nodes G)) merge_node_ok
               (fun ev => [event_id ev]) keys_nodes_merge_node evs
               (fold_left merge_node_ok evs empty_graph)).
    rewrite first_seen_nil; [now rewrite app_nil_r|].
    intros x Hx. rewrite flat_map_singleton in Hx.
    apply In_nodes_node_phase. now right.
  - intros x. rewrite !get_nodes_node_phase. simpl dict_get.
    symmetry. apply track_twice. intros ev Hev _. now apply Hnd.
Qed.

Section Twice.
Variable json_loads : string -> result json.

Lemma keys_parse_properties_eq (row : Series) (drop_cols : list (option string)) :
  keys (parse_properties_from_row json_loads row drop_cols)
  = map fst (filter (fun kc => negb (dropped (snd kc)))
               (filter (fun kc => negb (in_drop drop_cols (fst kc))) row)).
Proof.
  unfold parse_properties_from_row, keys. rewrite !map_map. reflexivity.
Qed.

Lemma NoDup_keys_node_events (d : DataFrame) (ev : string * option cell * attrs) :
  NoDup (columns d) -> In ev (node_events json_loads (Some d)) ->
  NoDup (keys (snd ev)).
Proof.
  unfold node_events. intros Hnd.
  destruct (first_present (columns d) id_aliases) as [id_col|]; [|intros []].
  intros Hev. apply in_map_iff in Hev. destruct Hev as (row & <- & Hrow).
  unfold node_fields. cbn [snd]. rewrite keys_parse_properties_eq.
  apply NoDup_map_fst_filter, NoDup_map_fst_filter.
  change (NoDup (index row)). now rewrite (index_iterrows _ _ Hrow).
Qed.

(** X9: a node table read twice counts once.  Given as both node tables,
    a table with distinct column labels yields the very graph it yields
    alone, whatever its rows repeat and whatever the relation table
    holds. *)
Theorem X9_table_read_twice (t : DataFrame) (rel : option DataFrame) :
  NoDup (columns t) ->
  build_graph json_loads (Some t) (Some t) rel
  = build_graph json_loads (Some t) None rel.
Proof.
  intros Hnd. rewrite !build_graph_eq.
  destruct (id_missing (Some t)); [reflexivity|].
  destruct (node_rows_bind [] (node_events json_loads (Some t))); [|reflexivity].
  cbn [negb]. simpl (id_missing None). simpl (node_events json_loads None).
  cbn [node_rows_bind negb].
  rewrite node_rows_bind_seen.
  - cbn [negb]. destruct (endpoints_missing rel); [reflexivity|].
    destruct (edge_rows_bind (edge_events json_loads rel)); [|reflexivity].
    cbn [negb]. f_equal. unfold assembled. f_equal.
    rewrite app_nil_r, fold_left_app.
    apply node_phase_twice. intros ev Hev. now apply (NoDup_keys_node_events t).
  - intros ev Hev. apply In_nodes_node_phase. right. now apply in_map.
Qed.
End Twice.

(** ** The last row wins *)

Lemma edge_step_get (e : string * string) (k : string)
    (evs : list (string * string * attrs)) (es : dict (string * string) attrs) :
  (forall ev, In ev evs -> NoDup (keys (snd ev))) ->
  attr_of (dict_get e (fold_left edge_step evs es)) k
  = match last_edge_attr e k evs with
    | Some v => Some v
    | None => attr_of (dict_get e es) k
    end.
Proof.
  revert es. induction evs as [|ev evs IH]; intros es Hnd; cbn [fold_left].
  - reflexivity.
  - rewrite IH by (intros ev' Hev'; apply Hnd; now right).
    cbn [last_edge_attr]. destruct (last_edge_attr e k evs); [reflexivity|].
    unfold edge_step. rewrite dict_get_set. simpl keqb.
    destruct (pair_eqb_spec e (event_pair ev)) as [->|Hne].
    + destruct (pair_eqb_spec (event_pair ev) (event_pair ev)) as [_|Hn];
        [|now destruct Hn].
      cbn [attr_of].
      destruct (dict_get k (snd ev)) eqn:Hk.
      * apply dict_get_update_in; [apply Hnd; now left | assumption].
      * rewrite dict_get_update_other by assumption.
        destruct (dict_get (event_pair ev) es); reflexivity.
    + destruct (pair_eqb_spec (event_pair ev) e) as [Heq|_]; [congruence | reflexivity].
Qed.

Section LastRow.
Variable json_loads : string -> result json.

Lemma NoDup_keys_edge_events (df : option DataFrame) (ev : string * string * attrs) :
  In ev (edge_events json_loads df) -> NoDup (keys (snd ev)).
Proof.
  unfold edge_events. destruct df as [d|]; [|intros []].
  destruct (first_present (columns d) source_aliases) as [s_col|]; [|intros []].
  destruct (first_present (columns d) target_aliases) as [t_col|]; [|intros []].
  intros Hev. apply in_map_iff in Hev. destruct Hev as (row & <- & Hrow).
  unfold relation_fields. cbn [snd]. apply NoDup_edge_attrs.
Qed.

(** X10: the properties of a declared entity accumulate over all its node
    rows, the later row winning: when the node tables have distinct column
    labels, every attribute other than node_type has the value given by
    the last row of that id, over both tables in order, that has the
    property, and is absent when no row has it. *)
Theorem X10_last_row_wins_on_properties (doc draw rel : option DataFrame) (G : DiGraph)
    (x : string) :
  build_graph json_loads doc draw rel = Ok G ->
  (forall d, doc = Some d \/ draw = Some d -> NoDup (columns d)) ->
  In x (declared_ids doc ++ declared_ids draw) ->
  exists a,
    dict_get x (nodes G) = Some a
    /\ forall k, k <> "node_type" ->
         dict_get k a
         = last_prop x k (node_events json_loads doc ++ node_events json_loads draw).
Proof.
  intros HG Hcols Hin. apply build_graph_Ok in HG. subst G. rewrite get_declared.
  set (evs := node_events json_loads doc ++ node_events json_loads draw).
  assert (Hnd : forall ev, In ev evs -> event_id ev = x -> NoDup (keys (snd ev))).
  { intros ev Hev _. unfold evs in Hev. apply in_app_iff in Hev.
    destruct Hev as [Hev|Hev].
    - destruct doc as [d|]; [|destruct Hev].
      apply (NoDup_keys_node_events json_loads d); [apply Hcols; now left | assumption].
    - destruct draw as [d|]; [|destruct Hev].
      apply (NoDup_keys_node_events json_loads d); [apply Hcols; now right | assumption]. }
  destruct (fold_left (track x) evs None) as [a|] eqn:Hf.
  - exists a. split; [reflexivity|]. intros k Hk.
    pose proof (@track_get x k evs None Hnd) as Hg. rewrite Hf in Hg.
    cbn [attr_of] in Hg. rewrite Hg.
    destruct (last_prop x k evs); [reflexivity|].
    now rewrite (proj2 (String.eqb_neq k "node_type") Hk).
  - apply track_declared in Hf. destruct Hf as (_ & Hout). exfalso. apply Hout.
    unfold evs. now rewrite map_app, !map_event_id_node_events.
Qed.

(** X11: the data of an edge accumulate over all the relation rows between
    its ordered pair, the later row winning: every attribute of the edge,
    relationship included, has the value given by the last such row that
    has it. *)
Theorem X11_last_row_wins_on_edges (doc draw rel : option DataFrame) (G : DiGraph)
    (e : string * string) (a : attrs) (k : string) :
  build_graph json_loads doc draw rel = Ok G ->
  dict_get e (edges G) = Some a ->
  dict_get k a = last_edge_attr e k (edge_events json_loads rel).
Proof.
  intros HG Ha. apply build_graph_Ok in HG. subst G. revert Ha.
  unfold assembled. rewrite edges_relation_phase, edges_node_phase. simpl edges.
  intros Ha.
  pose proof (@edge_step_get e k (edge_events json_loads rel) []
                (NoDup_keys_edge_events rel)) as Hg.
  rewrite Ha in Hg. cbn [attr_of dict_get] in Hg. rewrite Hg.
  now destruct (last_edge_attr e k (edge_events json_loads rel)).
Qed.
End LastRow.

(** ** The export of an assembled graph *)

Lemma NoDup_flat_map_filter {A B : Type} (f : B -> A -> bool) (us : list B)
    (l : list A) :
  NoDup l ->
  (forall u u' x, In u us -> In u' us -> f u x = true -> f u' x = true -> u = u') ->
  NoDup us ->
  NoDup (flat_map (fun u => filter (f u) l) us).
Proof.
  intros Hl Hsep Hus. induction us as [|u us IH]; simpl; [constructor|].
  inversion Hus as [|? ? Hout Hus']; subst.
  apply NoDup_app.
  - now apply NoDup_filter.
  - apply IH; [|assumption]. intros v v' x Hv Hv'. apply Hsep; now right.
  - intros x Hx Hx'. apply filter_In in Hx. destruct Hx as (_ & Hfx).
    apply in_flat_map in Hx'. destruct Hx' as (v & Hv & Hx').
    apply filter_In in Hx'. destruct Hx' as (_ & Hfv).
    apply Hout. rewrite (Hsep u v x); [assumption | now left | now right | assumption..].
Qed.

(** [G.edges] yields every edge once when each source is a node. *)
Lemma out_edges_Permutation (G : DiGraph) :
  NoDup (keys (nodes G)) -> NoDup (keys (edges G)) ->
  (forall e, In e (keys (edges G)) -> In (fst e) (keys (nodes G))) ->
  Permutation (out_edges G) (edges G).
Proof.
  intros Hn He Hsrc. unfold out_edges. apply NoDup_Permutation.
  - apply NoDup_flat_map_filter; [now apply (NoDup_map_inv fst) | | assumption].
    intros u u' x _ _ Hu Hu'. apply String.eqb_eq in Hu, Hu'. congruence.
  - now apply (NoDup_map_inv fst).
  - intros x. rewrite in_flat_map. split.
    + intros (u & _ & Hx). apply filter_In in Hx. tauto.
    + intros Hx. exists (fst (fst x)). split.
      * apply (Hsrc (fst x)). now apply in_map.
      * apply filter_In. split; [assumption | apply String.eqb_refl].
Qed.

Section ExportFacts.
Variable json_loads : string -> result json.
Variable json_dumps : json -> string.
Variable str_json : json -> string.
Variable str_title : string -> string.
Variable float_truthy : string -> bool.

Local Abbreviation export := (export_pyvis json_dumps str_json str_title float_truthy).

Lemma export_Some (G : DiGraph) (ns : list node_call) (es : list edge_call) :
  export G = Some (ns, es) ->
  ns = map (fun nd => node_call_of json_dumps str_json str_title float_truthy
                        (fst nd) (snd nd)) (nodes G)
  /\ es = map (edge_call_of str_json) (out_edges G).
Proof.
  unfold export, export_pyvis. destruct (List.length (nodes G) =? 0)%nat;
    [discriminate|]. intros [= <- <-]. split; reflexivity.
Qed.

Lemma out_edges_assembled (doc draw rel : option DataFrame) :
  Permutation (out_edges (assembled json_loads doc draw rel))
    (edges (assembled json_loads doc draw rel)).
Proof.
  apply out_edges_Permutation;
    [apply NoDup_nodes_assembled | apply NoDup_edges_assembled |].
  intros [u v] Hin. apply In_edges_assembled in Hin.
  apply In_nodes_assembled. rewrite !in_app_iff. right. right.
  unfold endpoint_ids. apply in_flat_map. exists (u, v). simpl. auto.
Qed.

(** X12: the export of an assembled graph adds every node once, in the
    order of the graph, and every edge once; each edge it adds joins two
    ids that it has added as nodes, which is what pyvis asks of
    [put_edge]. *)
Theorem X12_export_covers_graph (doc draw rel : option DataFrame) (G : DiGraph)
    (ns : list node_call) (es : list edge_call) :
  build_graph json_loads doc draw rel = Ok G ->
  export G = Some (ns, es) ->
  map nc_id ns = keys (nodes G)
  /\ NoDup (map nc_id ns)
  /\ Permutation (map (fun c => (ec_source c, ec_target c)) es) (keys (edges G))
  /\ forall c, In c es ->
       In (ec_source c) (map nc_id ns) /\ In (ec_target c) (map nc_id ns).
Proof.
  intros HG Hex. apply build_graph_Ok in HG. subst G.
  apply export_Some in Hex. destruct Hex as (-> & ->).
  assert (Hids : map nc_id
                   (map (fun nd => node_call_of json_dumps str_json str_title
                                     float_truthy (fst nd) (snd nd))
                      (nodes (assembled json_loads doc draw rel)))
                 = keys (nodes (assembled json_loads doc draw rel))).
  { rewrite map_map. reflexivity. }
  assert (Hpairs : map (fun c => (ec_source c, ec_target c))
                     (map (edge_call_of str_json)
                        (out_edges (assembled json_loads doc draw rel)))
                   = map fst (out_edges (assembled json_loads doc draw rel))).
  { rewrite map_map. apply map_ext. intros [[u v] a]. reflexivity. }
  rewrite Hids. split; [reflexivity|]. split; [apply NoDup_nodes_assembled|].
  assert (Hperm : Permutation (map fst (out_edges (assembled json_loads doc draw rel)))
                    (keys (edges (assembled json_loads doc draw rel)))).
  { apply Permutation_map, out_edges_assembled. }
  split; [now rewrite Hpairs|].
  intros c Hc.
  assert (Hin : In (ec_source c, ec_target c)
                  (keys (edges (assembled json_loads doc draw rel)))).
  { apply (Permutation_in _ Hperm). rewrite <- Hpairs.
    apply (in_map (fun c => (ec_source c, ec_target c))). exact Hc. }
  apply In_edges_assembled in Hin.
  split; apply In_nodes_assembled; rewrite !in_app_iff; right; right;
    unfold endpoint_ids; apply in_flat_map;
    exists (ec_source c, ec_target c); simpl; auto.
Qed.

(** X13: the label of every exported edge is the relationship attribute of
    that edge: in an assembled graph the attribute is always there, so the
    fallbacks to relationship_type and to the empty string are never
    taken. *)
Theorem X13_export_edge_label (doc draw rel : option DataFrame) (G : DiGraph)
    (ns : list node_call) (es : list edge_call) (c : edge_call) :
  build_graph json_loads doc draw rel = Ok G ->
  export G = Some (ns, es) ->
  In c es ->
  exists a,
    dict_get (ec_source c, ec_target c) (edges G) = Some a
    /\ dict_get "relationship" a = Some (ec_label c).
Proof.
  intros HG Hex Hc. apply build_graph_Ok in HG. subst G.
  apply export_Some in Hex. destruct Hex as (_ & ->).
  apply in_map_iff in Hc. destruct Hc as ([[u v] a] & <- & He).
  apply (Permutation_in _ (out_edges_assembled doc draw rel)) in He.
  exists a. cbn [edge_call_of ec_source ec_target ec_label fst snd]. split.
  - apply In_dict_get; [apply NoDup_edges_assembled | assumption].
  - assert (Hget : dict_get (u, v) (edges (assembled json_loads doc draw rel)) = Some a)
      by (apply In_dict_get; [apply NoDup_edges_assembled | assumption]).
    assert (Hk : In "relationship" (keys a)).
    { revert Hget. unfold assembled. apply relationship_key_relation_phase.
      - apply relationship_key_edge_events.
      - rewrite edges_node_phase. discriminate. }
    apply dict_has_In in Hk. unfold dict_has in Hk. unfold get_default.
    destruct (dict_get "relationship" a); [reflexivity | discriminate].
Qed.

Lemma get_undeclared (doc draw rel : option DataFrame) (x : string) :
  ~ In x (declared_ids doc ++ declared_ids draw) -> In x (endpoint_ids rel) ->
  dict_get x (nodes (assembled json_loads doc draw rel)) = Some placeholder_attrs.
Proof.
  intros Hout Hin. rewrite get_declared, track_other.
  - assert (Hkey : In x (keys (nodes (assembled json_loads doc draw rel)))).
    { apply In_nodes_assembled. rewrite !in_app_iff in *. tauto. }
    apply dict_has_In in Hkey. unfold dict_has in Hkey.
    rewrite get_declared, track_other in Hkey.
    + destruct (existsb _ _); [reflexivity | discriminate].
    + now rewrite map_app, !map_event_id_node_events.
  - now rewrite map_app, !map_event_id_node_events.
Qed.

(** X14: an id that only the relation table mentions is exported under its
    own id as label, in the group "unknown". *)
Theorem X14_export_of_placeholder (doc draw rel : option DataFrame) (G : DiGraph)
    (ns : list node_call) (es : list edge_call) (x : string) :
  build_graph json_loads doc draw rel = Ok G ->
  export G = Some (ns, es) ->
  ~ In x (declared_ids doc ++ declared_ids draw) ->
  In x (endpoint_ids rel) ->
  exists c, In c ns /\ nc_id c = x /\ nc_label c = VStr x
            /\ nc_group c = VStr "unknown".
Proof.
  intros HG Hex Hout Hin. apply build_graph_Ok in HG. subst G.
  apply export_Some in Hex. destruct Hex as (-> & _).
  pose proof (get_undeclared doc draw rel x Hout Hin) as Hget.
  apply dict_get_In in Hget.
  exists (node_call_of json_dumps str_json str_title float_truthy x placeholder_attrs).
  split; [|repeat split].
  apply (in_map (fun nd => node_call_of json_dumps str_json str_title float_truthy
                             (fst nd) (snd nd)) _ _ Hget).
Qed.

(** X15: nothing is exported, and no file written, exactly when the graph
    has no node, that is when no node row and no relation row was read. *)
Theorem X15_export_nothing_iff_no_row (doc draw rel : option DataFrame) (G : DiGraph) :
  build_graph json_loads doc draw rel = Ok G ->
  (export G = None
   <-> declared_ids doc ++ declared_ids draw ++ endpoint_ids rel = []).
Proof.
  intros HG. apply build_graph_Ok in HG. subst G.
  unfold export, export_pyvis.
  pose proof (In_nodes_assembled json_loads doc draw rel) as Hin.
  destruct (nodes (assembled json_loads doc draw rel)) as [|[n a] r] eqn:Hn;
    cbn [List.length Nat.eqb].
  - split; [intros _ | reflexivity].
    destruct (declared_ids doc ++ declared_ids draw ++ endpoint_ids rel) as [|y l];
      [reflexivity|].
    exfalso. apply (proj2 (Hin y)). now left.
  - split; [discriminate|]. intros Hnil. exfalso.
    rewrite Hnil in Hin. apply (proj1 (Hin n)). simpl. now left.
Qed.
End ExportFacts.

(** ** The further properties on the sample tables *)

Lemma sample_graph_built :
  build_graph json_loads_subset (Some table_a) (Some table_b) (Some table_rel)
  = Ok sample_graph.
Proof. vm_compute. reflexivity. Qed.

Lemma X1_edges_join_nodes_witness :
  In "n1" (keys (nodes sample_graph)) /\ In "n3" (keys (nodes sample_graph)).
Proof.
  apply (@X1_edges_join_nodes json_loads_subset (Some table_a) (Some table_b)
           (Some table_rel) sample_graph "n1" "n3").
  - vm_compute. reflexivity.
  - vm_compute. tauto.
Defined.

Lemma X2_size_bounds_witness :
  List.length (nodes sample_graph) <= 1 + 1 + 2 * 2
  /\ List.length (edges sample_graph) <= 2.
Proof.
  apply (@X2_size_bounds json_loads_subset (Some table_a) (Some table_b)
           (Some table_rel) sample_graph).
  vm_compute. reflexivity.
Defined.

Lemma X3_insertion_order_witness :
  keys (nodes sample_graph) = first_seen [] ["n1"; "n2"; "n1"; "n2"; "n1"; "n3"]
  /\ map fst (out_edges sample_graph)
     = flat_map (fun u => filter (fun p => fst p =? u)
                            (first_seen [] [("n1", "n2"); ("n1", "n3")]))
         (keys (nodes sample_graph)).
Proof.
  apply (@X3_insertion_order json_loads_subset (Some table_a) (Some table_b)
           (Some table_rel) sample_graph).
  vm_compute. reflexivity.
Defined.

(** The rows (a, b), (b, c), (a, c): [G.edges] gives the two edges that
    leave a before the one that leaves b. *)
Lemma out_edges_by_source :
  exists G,
    build_graph json_loads_subset None None (Some table_rel_abc) = Ok G
    /\ keys (nodes G) = ["a"; "b"; "c"]
    /\ map fst (out_edges G) = [("a", "b"); ("a", "c"); ("b", "c")].
Proof. eexists. split; [vm_compute; reflexivity|]. split; reflexivity. Qed.

Lemma X4_relations_keep_declared_witness :
  exists G0,
    build_graph json_loads_subset (Some table_a) (Some table_b) None = Ok G0
    /\ edges G0 = []
    /\ (forall x, In x (keys (nodes G0))
                  <-> In x (declared_ids (Some table_a) ++ declared_ids (Some table_b)))
    /\ forall x a, dict_get x (nodes G0) = Some a ->
                   dict_get x (nodes sample_graph) = Some a.
Proof.
  apply (@X4_relations_keep_declared json_loads_subset (Some table_a) (Some table_b)
           (Some table_rel) sample_graph).
  vm_compute. reflexivity.
Defined.

Lemma X5_edges_from_relations_alone_witness :
  exists G1,
    build_graph json_loads_subset None None (Some table_rel) = Ok G1
    /\ forall e, dict_get e (edges G1) = dict_get e (edges sample_graph).
Proof.
  apply (@X5_edges_from_relations_alone json_loads_subset (Some table_a) (Some table_b)
           (Some table_rel) sample_graph).
  vm_compute. reflexivity.
Defined.

Lemma X6_attribute_keys_witness :
  (forall x a k, dict_get x (nodes sample_graph) = Some a -> In k (keys a) ->
     k = "node_type" \/ k = "placeholder"
     \/ In k (node_property_columns (Some table_a)
               ++ node_property_columns (Some table_b)))
  /\ (forall e a, dict_get e (edges sample_graph) = Some a ->
        In "relationship" (keys a)
        /\ forall k, In k (keys a) ->
             k = "relationship" \/ In k (edge_property_columns (Some table_rel))).
Proof.
  apply (@X6_attribute_keys json_loads_subset (Some table_a) (Some table_b)
           (Some table_rel) sample_graph).
  vm_compute. reflexivity.
Defined.

Lemma X7_placeholder_marks_undeclared_witness :
  (In "placeholder" (keys placeholder_attrs)
   <-> ~ In "n3" (declared_ids (Some table_a) ++ declared_ids (Some table_b)))
  /\ (~ In "n3" (declared_ids (Some table_a) ++ declared_ids (Some table_b)) ->
      placeholder_attrs = placeholder_attrs).
Proof.
  apply (@X7_placeholder_marks_undeclared json_loads_subset (Some table_a)
           (Some table_b) (Some table_rel) sample_graph "n3" placeholder_attrs).
  - vm_compute. reflexivity.
  - vm_compute. intros [E|[E|[]]]; discriminate.
  - vm_compute. reflexivity.
Defined.

Lemma X8_disjoint_tables_commute_witness :
  exists G',
    build_graph json_loads_subset (Some table_b) (Some table_a) (Some table_rel) = Ok G'
    /\ (forall x, dict_get x (nodes G') = dict_get x (nodes sample_graph))
    /\ edges G' = edges sample_graph.
Proof.
  apply (@X8_disjoint_tables_commute json_loads_subset (Some table_a) (Some table_b)
           (Some table_rel) sample_graph).
  - vm_compute. intros x [<-|[]] [E|[]]. discriminate.
  - vm_compute. reflexivity.
Defined.

Lemma X9_table_read_twice_witness :
  build_graph json_loads_subset (Some table_blank_type) (Some table_blank_type)
    (Some table_rel)
  = build_graph json_loads_subset (Some table_blank_type) None (Some table_rel).
Proof.
  apply (@X9_table_read_twice json_loads_subset table_blank_type (Some table_rel)).
  simpl. repeat constructor; simpl; intuition discriminate.
Defined.

Lemma X10_last_row_wins_on_properties_witness :
  exists a,
    dict_get "X" (nodes (assembled json_loads_subset (Some table_blank_type) None None))
    = Some a
    /\ forall k, k <> "node_type" ->
         dict_get k a
         = last_prop "X" k (node_events json_loads_subset (Some table_blank_type)
                            ++ node_events json_loads_subset None).
Proof.
  apply (@X10_last_row_wins_on_properties json_loads_subset (Some table_blank_type)
           None None).
  - vm_compute. reflexivity.
  - intros d [[= <-]|[=]]. simpl. repeat constructor; simpl; intuition discriminate.
  - vm_compute. tauto.
Defined.

Lemma X11_last_row_wins_on_edges_witness :
  dict_get "relationship" [("relationship", VStr "refs")]
  = last_edge_attr ("n1", "n2") "relationship"
      (edge_events json_loads_subset (Some table_rel_twice)).
Proof.
  apply (@X11_last_row_wins_on_edges json_loads_subset None None
           (Some table_rel_twice)
           (assembled json_loads_subset None None (Some table_rel_twice))).
  - vm_compute. reflexivity.
  - vm_compute. reflexivity.
Defined.

Lemma X12_export_covers_graph_witness :
  exists ns es,
    export_sample sample_graph = Some (ns, es)
    /\ map nc_id ns = keys (nodes sample_graph)
    /\ NoDup (map nc_id ns)
    /\ Permutation (map (fun c => (ec_source c, ec_target c)) es)
         (keys (edges sample_graph))
    /\ forall c, In c es ->
         In (ec_source c) (map nc_id ns) /\ In (ec_target c) (map nc_id ns).
Proof.
  destruct (export_sample sample_graph) as [[ns es]|] eqn:Hex;
    [|vm_compute in Hex; discriminate Hex].
  exists ns, es. split; [reflexivity|].
  apply (@X12_export_covers_graph json_loads_subset (json_text false) (json_text true)
           ascii_title mantissa_nonzero (Some table_a) (Some table_b) (Some table_rel)
           sample_graph ns es).
  - vm_compute. reflexivity.
  - exact Hex.
Defined.

Lemma X13_export_edge_label_witness :
  exists a,
    dict_get ("n1", "n3") (edges sample_graph) = Some a
    /\ dict_get "relationship" a = Some (VStr "refs").
Proof.
  destruct (export_sample sample_graph) as [[ns es]|] eqn:Hex;
    [|vm_compute in Hex; discriminate Hex].
  apply (@X13_export_edge_label json_loads_subset (json_text false) (json_text true)
           ascii_title mantissa_nonzero (Some table_a) (Some table_b) (Some table_rel)
           sample_graph ns es
           {| ec_source := "n1"; ec_target := "n3";
              ec_title := "relationship: refs"; ec_label := VStr "refs" |}).
  - vm_compute. reflexivity.
  - exact Hex.
  - vm_compute in Hex. injection Hex as <- <-. simpl. tauto.
Defined.

Lemma X14_export_of_placeholder_witness :
  exists ns es,
    export_sample sample_graph = Some (ns, es)
    /\ exists c, In c ns /\ nc_id c = "n3" /\ nc_label c = VStr "n3"
                 /\ nc_group c = VStr "unknown".
Proof.
  destruct (export_sample sample_graph) as [[ns es]|] eqn:Hex;
    [|vm_compute in Hex; discriminate Hex].
  exists ns, es. split; [reflexivity|].
  apply (@X14_export_of_placeholder json_loads_subset (json_text false) (json_text true)
           ascii_title mantissa_nonzero (Some table_a) (Some table_b) (Some table_rel)
           sample_graph ns es).
  - vm_compute. reflexivity.
  - exact Hex.
  - vm_compute. intros [E|[E|[]]]; discriminate.
  - vm_compute. tauto.
Defined.

Lemma X15_export_nothing_iff_no_row_witness :
  export_sample empty_graph = None
  <-> declared_ids None ++ declared_ids None ++ endpoint_ids None = [].
Proof.
  apply (@X15_export_nothing_iff_no_row json_loads_subset (json_text false)
           (json_text true) ascii_title mantissa_nonzero None None None empty_graph).
  vm_compute. reflexivity.
Defined.

(** ** No empty attribute *)

Section DictValues.
Context {K V : Type} `{EqKey K}.

Lemma In_dict_set (k k' : K) (v v' : V) (d : dict K V) :
  In (k, v) (dict_set k' v' d) -> (k = k' /\ v = v') \/ In (k, v) d.
Proof.
  induction d as [|[k0 v0] d IH]; simpl.
  - intros [[= <- <-]|[]]. now left.
  - destruct (keqb_spec k' k0) as [->|Hne]; simpl.
    + intros [[= <- <-]|Hin]; [now left | right; now right].
    + intros [E|Hin]; [right; now left|].
      destruct (IH Hin) as [Heq|Hd]; [now left | right; now right].
Qed.

Lemma In_dict_update (k : K) (v : V) (d e : dict K V) :
  In (k, v) (dict_update d e) -> In (k, v) d \/ In (k, v) e.
Proof.
  unfold dict_update. revert d.
  induction e as [|[k0 v0] e IH]; intros d; simpl; [tauto|].
  intros Hin. apply IH in Hin. destruct Hin as [Hin|Hin]; [|tauto].
  apply In_dict_set in Hin. destruct Hin as [[-> ->]|Hin]; tauto.
Qed.
End DictValues.

Lemma In_merged_attrs (cur : option attrs) (node_type : option cell) (props : attrs)
    (k : string) (v : value) :
  In (k, v) (merged_attrs cur node_type props) ->
  (exists a, cur = Some a /\ In (k, v) a) \/ k = "node_type" \/ In (k, v) props.
Proof.
  unfold merged_attrs. destruct cur as [a|]; intros Hin.
  - apply In_dict_update in Hin. destruct Hin as [Hin|Hin]; [|tauto].
    destruct node_type as [t|]; [destruct (truthy t)|]; try (left; now exists a).
    unfold dict_setdefault in Hin.
    destruct (dict_has "node_type" a); [left; now exists a|].
    apply In_dict_set in Hin. destruct Hin as [[-> _]|Hin]; [tauto | left; now exists a].
  - apply In_dict_update in Hin. destruct Hin as [[]|Hin].
    apply In_dict_update in Hin. destruct Hin as [Hin|Hin]; [|tauto].
    destruct node_type as [t|]; [destruct (truthy t)|]; simpl in Hin;
      intuition congruence.
Qed.

Lemma In_track (x : string) (evs : list (string * option cell * attrs))
    (cur : option attrs) (a' : attrs) (k : string) (v : value) :
  fold_left (track x) evs cur = Some a' -> In (k, v) a' ->
  (exists a, cur = Some a /\ In (k, v) a) \/ k = "node_type"
  \/ exists ev, In ev evs /\ In (k, v) (snd ev).
Proof.
  revert cur. induction evs as [|ev evs IH]; intros cur; cbn [fold_left].
  - intros -> Hin. left. now exists a'.
  - intros Hf Hin. destruct (IH _ Hf Hin) as [(a & Ha & Hka)|[Hk|(ev' & Hev & Hkv)]].
    + unfold track in Ha. destruct (event_id ev =? x).
      * injection Ha as <-. apply In_merged_attrs in Hka.
        destruct Hka as [Hcur|[Hk|Hp]]; [tauto | tauto |].
        right. right. exists ev. simpl. tauto.
      * left. now exists a.
    + tauto.
    + right. right. exists ev'. simpl. tauto.
Qed.

Lemma last_prop_None (x k : string) (evs : list (string * option cell * attrs)) :
  (forall ev, In ev evs -> dict_get k (snd ev) = None) -> last_prop x k evs = None.
Proof.
  induction evs as [|[[node_id node_type] props] evs IH]; intros Hevs;
    cbn [last_prop]; [reflexivity|].
  rewrite IH by (intros ev Hev; apply Hevs; now right).
  destruct (node_id =? x); [|reflexivity].
  apply (Hevs (node_id, node_type, props)). now left.
Qed.

Section Values.
Variable json_loads : string -> result json.

Lemma parse_properties_nonempty (row : Series) (drop_cols : list (option string))
    (k : string) (v : value) :
  In (k, v) (parse_properties_from_row json_loads row drop_cols) -> nonempty_value v.
Proof.
  intros Hin. apply In_parse_properties in Hin.
  destruct Hin as (c & _ & _ & Hd & ->). unfold nonempty_value.
  destruct c as [s| |z]; simpl in Hd |- *; [|discriminate | split; discriminate].
  destruct (bracketed (strip s)); [destruct (json_loads (strip s))|];
    split; try discriminate; intros [= ->]; discriminate.
Qed.

Lemma node_events_nonempty (df : option DataFrame) (ev : string * option cell * attrs)
    (k : string) (v : value) :
  In ev (node_events json_loads df) -> In (k, v) (snd ev) -> nonempty_value v.
Proof.
  unfold node_events. destruct df as [d|]; [|intros []].
  destruct (first_present (columns d) id_aliases) as [id_col|]; [|intros []].
  intros Hev. apply in_map_iff in Hev. destruct Hev as (row & <- & _).
  unfold node_fields. cbn [snd]. apply parse_properties_nonempty.
Qed.

Lemma edge_events_nonempty (df : option DataFrame) (ev : string * string * attrs)
    (k : string) (v : value) :
  In ev (edge_events json_loads df) -> In (k, v) (snd ev) ->
  k = "relationship" \/ nonempty_value v.
Proof.
  unfold edge_events. destruct df as [d|]; [|intros []].
  destruct (first_present (columns d) source_aliases) as [s_col|]; [|intros []].
  destruct (first_present (columns d) target_aliases) as [t_col|]; [|intros []].
  intros Hev. apply in_map_iff in Hev. destruct Hev as (row & <- & _).
  unfold relation_fields, edge_attrs. cbn [snd]. intros Hin.
  apply In_dict_update in Hin. destruct Hin as [[[= <- _]|[]]|Hin]; [now left|].
  right. eapply parse_properties_nonempty. eassumption.
Qed.

(** X16: no attribute of the graph is the empty string or the missing
    marker, save possibly the type of a node and the relation type of an
    edge, which are stored as their cells are: the other attributes come
    from cells that passed the filter of the extractor, or are the
    placeholder marker. *)
Theorem X16_no_empty_attribute (doc draw rel : option DataFrame) (G : DiGraph) :
  build_graph json_loads doc draw rel = Ok G ->
  (forall x a k v, dict_get x (nodes G) = Some a -> In (k, v) a ->
     k = "node_type" \/ nonempty_value v)
  /\ (forall e a k v, dict_get e (edges G) = Some a -> In (k, v) a ->
        k = "relationship" \/ nonempty_value v).
Proof.
  intros HG. apply build_graph_Ok in HG. subst G. split.
  - intros x a k v. rewrite get_declared.
    destruct (fold_left (track x) _ None) as [a'|] eqn:Hf.
    + intros [= <-] Hin.
      destruct (@In_track x _ _ _ _ _ Hf Hin) as [(a0 & Ha0 & _)|[Hk|(ev & Hev & Hkv)]];
        [discriminate | now left |].
      right. apply in_app_iff in Hev.
      destruct Hev as [Hev|Hev]; eapply node_events_nonempty; eassumption.
    + destruct (existsb _ _); [|discriminate]. intros [= <-] Hin.
      simpl in Hin. destruct Hin as [[= <- _]|[[= _ <-]|[]]]; [now left|].
      right. split; discriminate.
  - unfold assembled. rewrite edges_relation_phase, edges_node_phase. simpl edges.
    assert (Hgen : forall evs (es : dict (string * string) attrs),
               (forall ev, In ev evs -> In ev (edge_events json_loads rel)) ->
               (forall e (a : attrs) k v, dict_get e es = Some a -> In (k, v) a ->
                  k = "relationship" \/ nonempty_value v) ->
               forall e (a : attrs) k v,
                 dict_get e (fold_left edge_step evs es) = Some a -> In (k, v) a ->
                 k = "relationship" \/ nonempty_value v).
    { induction evs as [|ev evs IH]; intros es Hsub Hes; cbn [fold_left];
        [assumption|].
      apply IH; [intros ev' Hev'; apply Hsub; now right|].
      intros e a k v. unfold edge_step. rewrite dict_get_set.
      destruct (keqb e (event_pair ev)); [|apply Hes].
      intros [= <-] Hin. apply In_dict_update in Hin. destruct Hin as [Hin|Hin].
      - destruct (dict_get (event_pair ev) es) eqn:Hold; [|destruct Hin].
        eapply Hes; eassumption.
      - eapply edge_events_nonempty; [apply Hsub; now left | eassumption]. }
    apply Hgen; [tauto | discriminate].
Qed.

(** X17: the first node table decides the type.  When an id declared by
    the first table has a type after that table, the second table does not
    change it, whatever types its rows give, as long as it has distinct
    column labels and no property column named node_type. *)
Theorem X17_first_table_type_kept (doc draw rel : option DataFrame) (G0 G : DiGraph)
    (x : string) (a0 : attrs) (v : value) :
  build_graph json_loads doc None rel = Ok G0 ->
  build_graph json_loads doc draw rel = Ok G ->
  In x (declared_ids doc) ->
  dict_get x (nodes G0) = Some a0 ->
  dict_get "node_type" a0 = Some v ->
  (forall d, draw = Some d -> NoDup (columns d)) ->
  ~ In "node_type" (node_property_columns draw) ->
  exists a, dict_get x (nodes G) = Some a /\ dict_get "node_type" a = Some v.
Proof.
  intros HG0 HG Hin Ha0 Hv Hcols Hno.
  apply build_graph_Ok in HG0, HG. subst G0 G.
  rewrite get_declared in Ha0 |- *. simpl (node_events json_loads None) in Ha0.
  rewrite app_nil_r in Ha0. rewrite fold_left_app.
  destruct (fold_left (track x) (node_events json_loads doc) None) as [a1|] eqn:Hf.
  - injection Ha0 as ->.
    assert (Hnd : forall ev, In ev (node_events json_loads draw) -> event_id ev = x ->
                             NoDup (keys (snd ev))).
    { intros ev Hev _. destruct draw as [d|]; [|destruct Hev].
      apply (NoDup_keys_node_events json_loads d); [now apply Hcols | assumption]. }
    pose proof (@track_get x "node_type" (node_events json_loads draw) (Some a0) Hnd)
      as Hg.
    cbn [attr_of] in Hg. rewrite Hv in Hg.
    assert (Hlast : last_prop x "node_type" (node_events json_loads draw) = None).
    { apply last_prop_None. intros ev Hev. apply dict_get_None. intros Hk.
      apply Hno. eapply keys_node_events; eassumption. }
    rewrite Hlast in Hg.
    destruct (fold_left (track x) (node_events json_loads draw) (Some a0)) as [a|];
      [|discriminate].
    exists a. split; [reflexivity | exact Hg].
  - apply track_declared in Hf. destruct Hf as (_ & Hout). exfalso. apply Hout.
    now rewrite map_event_id_node_events.
Qed.
End Values.

Lemma X16_no_empty_attribute_witness :
  (forall x a k v, dict_get x (nodes sample_graph) = Some a -> In (k, v) a ->
     k = "node_type" \/ nonempty_value v)
  /\ (forall e a k v, dict_get e (edges sample_graph) = Some a -> In (k, v) a ->
        k = "relationship" \/ nonempty_value v).
Proof.
  apply (@X16_no_empty_attribute json_loads_subset (Some table_a) (Some table_b)
           (Some table_rel) sample_graph).
  vm_compute. reflexivity.
Defined.

Lemma X17_first_table_type_kept_witness :
  exists a,
    dict_get "n1"
      (nodes (assembled json_loads_subset (Some table_a) (Some table_retype)
                (Some table_rel))) = Some a
    /\ dict_get "node_type" a = Some (VStr "Part").
Proof.
  apply (@X17_first_table_type_kept json_loads_subset (Some table_a)
           (Some table_retype) (Some table_rel)
           (assembled json_loads_subset (Some table_a) None (Some table_rel))
           (assembled json_loads_subset (Some table_a) (Some table_retype)
              (Some table_rel))
           "n1" [("node_type", VStr "Part"); ("name", VStr "Bolt")] (VStr "Part")).
  - vm_compute. reflexivity.
  - vm_compute. reflexivity.
  - vm_compute. tauto.
  - vm_compute. reflexivity.
  - reflexivity.
  - intros d [= <-]. simpl. repeat constructor; simpl; intuition discriminate.
  - vm_compute. intros [E|[]]. discriminate.
Defined.
